(** * ipfs-update, package [util]: a shallow embedding of [util/utils.go]

    The file follows the Go source function by function.  Go strings and
    byte slices are byte sequences ([list ascii]); Go's [int] is the 64-bit
    signed integer, carried in [Z] with its range written out; a run-time
    panic or a goroutine blocked for ever is an explicit outcome of the
    function that suffers it; calls that leave the process (file system,
    HTTP, the local daemon, a spawned command) read their answer from a
    record describing the outside world and log the request they make.
    What the package prints ([stump.VLog], [stump.Error], [fmt.Printf]) is
    left out. *)

From Stdlib Require Import ZArith Ascii String Bool Lia Arith List.
Import ListNotations.

Open Scope Z_scope.
Open Scope list_scope.

(** ** Go values *)

(** A Go [string] (and a [[]byte]): a sequence of bytes. *)
Definition gostring := list ascii.

(** A Go string literal. *)
Definition str (s : string) : gostring := list_ascii_of_string s.

(** Run-time panics raised by the constructs the package uses. *)
Inductive panic : Type :=
| SliceBoundsOutOfRange
| IndexOutOfRange
| NilDereference.

(** How a Go call ends: it returns, it panics, or it blocks for ever. *)
Inductive result (A : Type) : Type :=
| Ret (a : A)
| Panics (p : panic)
| Blocks.

Arguments Ret {A} a.
Arguments Panics {A} p.
Arguments Blocks {A}.

Definition rbind {A B : Type} (r : result A) (k : A -> result B) : result B :=
  match r with
  | Ret a => k a
  | Panics p => Panics p
  | Blocks => Blocks
  end.

Notation "'got' x <- r ;; k" := (rbind r (fun x => k))
  (at level 10, x name, r at level 100, k at level 200).

(** [s[i:]] panics when [i] exceeds [len(s)]. *)
Definition slice_from (s : gostring) (i : nat) : result gostring :=
  if (i <=? length s)%nat then Ret (skipn i s) else Panics SliceBoundsOutOfRange.

(** [a[i]] for an [int] index panics unless [0 <= i < len(a)]. *)
Definition index {A : Type} (a : list A) (i : Z) : result A :=
  if (0 <=? i) && (i <? Z.of_nat (length a)) then
    match nth_error a (Z.to_nat i) with
    | Some x => Ret x
    | None => Panics IndexOutOfRange
    end
  else Panics IndexOutOfRange.

(** [s[:j]] panics unless [0 <= j <= len(s)]. *)
Definition slice_to (s : gostring) (j : Z) : result gostring :=
  if (0 <=? j) && (j <=? Z.of_nat (length s)) then Ret (firstn (Z.to_nat j) s)
  else Panics SliceBoundsOutOfRange.

(** A Go [error] value that is not nil: the sentinel [io.EOF], or an error
    known by its text. *)
Inductive error : Type :=
| EOF
| Error (msg : gostring).

Definition error_text (e : error) : gostring :=
  match e with
  | EOF => str "EOF"
  | Error msg => msg
  end.

(** ** The library functions the package calls *)

(** [strings.Split(s, sep)] for a one-byte separator (the package only
    splits on "/" and "."): the substrings between the separators, in
    order; a string without separator, the empty one included, gives one
    field. *)
Fixpoint Split (s : gostring) (sep : ascii) : list gostring :=
  match s with
  | [] => [[]]
  | c :: s' =>
      if Ascii.eqb c sep then [] :: Split s' sep
      else match Split s' sep with
           | [] => [[c]]
           | f :: fs => (c :: f) :: fs
           end
  end.

(** The width of Go's [int] on the 64-bit platforms. *)
Definition intSize : Z := 64.
Definition maxInt : Z := 2 ^ (intSize - 1) - 1.
Definition minInt : Z := - 2 ^ (intSize - 1).
Definition maxUint64 : Z := 2 ^ 64 - 1.

(** The two errors of package strconv. *)
Inductive NumError : Type :=
| ErrSyntax
| ErrRange.

Definition digit_of (c : ascii) : option Z :=
  let n := Z.of_nat (nat_of_ascii c) in
  if (48 <=? n) && (n <=? 57) then Some (n - 48) else None.

(** The loop of [strconv.ParseUint(s, 10, 64)]: one byte at a time, a byte
    that is no decimal digit is a syntax error, a value that leaves 64 bits
    a range error, whichever the scan meets first. *)
Fixpoint ParseUint_loop (n : Z) (s : gostring) : Z + NumError :=
  match s with
  | [] => inl n
  | c :: s' =>
      match digit_of c with
      | None => inr ErrSyntax
      | Some d =>
          if n >=? maxUint64 / 10 + 1 then inr ErrRange
          else
            let n1 := n * 10 + d in
            if n1 >? maxUint64 then inr ErrRange else ParseUint_loop n1 s'
      end
  end.

(** [strconv.Atoi], through [ParseInt(s, 10, 0)] (its fast path for short
    strings returns the same): an optional sign, then a non-empty run of
    decimal digits whose signed value fits [int]. *)
Definition Atoi (s : gostring) : Z + NumError :=
  match s with
  | [] => inr ErrSyntax
  | c :: r =>
      let neg := Ascii.eqb c "-" in
      let ds := if Ascii.eqb c "+" || neg then r else s in
      match ds with
      | [] => inr ErrSyntax
      | _ =>
          match ParseUint_loop 0 ds with
          | inr e => inr e
          | inl un =>
              if negb neg && (un >=? 2 ^ (intSize - 1)) then inr ErrRange
              else if neg && (un >? 2 ^ (intSize - 1)) then inr ErrRange
              else inl (if neg then - un else un)
          end
      end
  end.

(** ** [BeforeVersion] *)

(** The body of [for i := 0; i < 3; i++], entered with index [i] and [n]
    iterations left. *)
Fixpoint BeforeVersion_loop (aparts bparts : list gostring) (i : Z) (n : nat)
  : result bool :=
  match n with
  | O => Ret false
  | S n' =>
      got a <- index aparts i ;;
      match Atoi a with
      | inr _ => Ret false
      | inl an =>
          got b <- index bparts i ;;
          match Atoi b with
          | inr _ => Ret false
          | inl bn =>
              if bn <? an then Ret true
              else if bn >? an then Ret false
              else BeforeVersion_loop aparts bparts (i + 1) n'
          end
      end
  end.

Definition BeforeVersion (check cur : gostring) : result bool :=
  got a <- slice_from check 1 ;;
  let aparts := Split a "." in
  got b <- slice_from cur 1 ;;
  let bparts := Split b "." in
  BeforeVersion_loop aparts bparts 0 3.

(** ** Streams: [io.Reader], [io.LimitReader], [ioutil.ReadAll], [io.Copy] *)

(** [Read(p)] with [len(p) = n]: the bytes stored in [p], the error, and the
    reader afterwards. *)
Class Reader (R : Type) : Type :=
  Read : R -> nat -> gostring * option error * R.

(** The body of an HTTP response (the gateway's, or the daemon's answer to
    [Cat]): the bytes still to come, how many of them the transport hands
    over at most in one [Read] (one more than [segment]), and the transport
    error that ends the stream in place of [io.EOF], if any.  Once the
    bytes are out every further [Read] repeats the end of the stream. *)
Record body : Type := mkBody {
  pending : gostring;
  segment : nat;
  failure : option gostring
}.

Definition body_Read (b : body) (n : nat) : gostring * option error * body :=
  match pending b with
  | [] =>
      ([], Some match failure b with
                | None => EOF
                | Some msg => Error msg
                end, b)
  | _ =>
      let k := Nat.min n (S (segment b)) in
      (firstn k (pending b), None,
       mkBody (skipn k (pending b)) (segment b) (failure b))
  end.

#[export] Instance body_Reader : Reader body := body_Read.

(** [io.LimitedReader]: the reader [R] and the bytes [N] still allowed. *)
Record LimitedReader (R : Type) : Type := mkLimitedReader {
  LR : R;
  LN : Z
}.

Arguments mkLimitedReader {R} LR LN.
Arguments LR {R} l.
Arguments LN {R} l.

Definition LimitedReader_Read {R : Type} `{Reader R}
    (l : LimitedReader R) (n : nat) : gostring * option error * LimitedReader R :=
  if LN l <=? 0 then ([], Some EOF, l)
  else
    let n' := if Z.of_nat n >? LN l then Z.to_nat (LN l) else n in
    let '(bs, err, r') := Read (LR l) n' in
    (bs, err, mkLimitedReader r' (LN l - Z.of_nat (length bs))).

#[export] Instance LimitedReader_Reader {R : Type} `{Reader R}
  : Reader (LimitedReader R) := LimitedReader_Read.

Definition LimitReader {R : Type} (r : R) (n : Z) : LimitedReader R :=
  mkLimitedReader r n.

(** [limitReadCloser]: the embedded [Reader] is the limited reader; the
    embedded [Closer] is the stream [rc] that the limited reader holds, so
    it is read off [lrcReader] here. *)
Record limitReadCloser (R : Type) : Type := mkLimitReadCloser {
  lrcReader : LimitedReader R
}.

Arguments mkLimitReadCloser {R} lrcReader.
Arguments lrcReader {R} l.

Definition lrcCloser {R : Type} (l : limitReadCloser R) : R := LR (lrcReader l).

#[export] Instance limitReadCloser_Reader {R : Type} `{Reader R}
  : Reader (limitReadCloser R) :=
  fun l n =>
    let '(bs, err, lr') := Read (lrcReader l) n in
    (bs, err, mkLimitReadCloser lr').

Definition newLimitReadCloser {R : Type} (rc : R) (limit : Z) : limitReadCloser R :=
  mkLimitReadCloser (LimitReader rc limit).

Definition fetchSizeLimit : Z := 1024 * 1024 * 512.

(** [ioutil.ReadAll]: [Read] into a buffer of [bufsize] free bytes until an
    error; [io.EOF] ends the stream without error.  [fuel] bounds the number
    of calls of [Read]; a reader that outlasts it keeps the caller for ever. *)
Fixpoint ReadAll {R : Type} `{Reader R} (fuel bufsize : nat) (r : R)
    (acc : gostring) : result (gostring * option error * R) :=
  match fuel with
  | O => Blocks
  | S fuel' =>
      let '(bs, err, r') := Read r bufsize in
      match err with
      | Some EOF => Ret (acc ++ bs, None, r')
      | Some e => Ret (acc ++ bs, Some e, r')
      | None => ReadAll fuel' bufsize r' (acc ++ bs)
      end
  end.

(** The temporary file [io.Copy] writes to: what it holds, and the error
    its next non-empty [Write] meets (a full disk), if any. *)
Record file : Type := mkFile {
  fname : gostring;
  contents : gostring;
  write_error : option gostring
}.

Definition file_Write (f : file) (bs : gostring) : option error * file :=
  match write_error f with
  | Some msg => (Some (Error msg), f)
  | None => (None, mkFile (fname f) (contents f ++ bs) None)
  end.

Definition copyBufferSize : nat := 32 * 1024.

(** [io.Copy(dst, src)]: read [src] to its end, write what was read to
    [dst]; the number of bytes written, the first error met other than
    [io.EOF], and both ends afterwards. *)
Fixpoint Copy {R : Type} `{Reader R} (fuel : nat) (dst : file) (src : R)
    (written : Z) : result (Z * option error * file * R) :=
  match fuel with
  | O => Blocks
  | S fuel' =>
      let '(bs, er, src') := Read src copyBufferSize in
      let '(ew, dst') :=
        match bs with
        | [] => (None, dst)
        | _ => file_Write dst bs
        end in
      match ew with
      | Some e => Ret (written, Some e, dst', src')
      | None =>
          let written' := written + Z.of_nat (length bs) in
          match er with
          | Some EOF => Ret (written', None, dst', src')
          | Some e => Ret (written', Some e, dst', src')
          | None => Copy fuel' dst' src' written'
          end
      end
  end.

(** ** The world outside the package *)

(** The requests the package sends out, in the order it sends them. *)
Inductive event : Type :=
| ReadFileEv (path : gostring)
| DaemonIsUpEv (endpoint : gostring)
| DaemonCatEv (endpoint path : gostring)
| GatewayHeadEv (url : gostring)
| GatewayGetEv (url userAgent : gostring).

Definition gateway_event (e : event) : bool :=
  match e with
  | GatewayHeadEv _ | GatewayGetEv _ _ => true
  | _ => false
  end.

(** A call that talks to the world: the requests it sent, and how it ended. *)
Definition io (A : Type) : Type := list event * result A.

Definition ioret {A : Type} (a : A) : io A := ([], Ret a).

Definition iobind {A B : Type} (m : io A) (k : A -> io B) : io B :=
  match m with
  | (t, Ret a) => let '(t', r) := k a in (t ++ t', r)
  | (t, Panics p) => (t, Panics p)
  | (t, Blocks) => (t, Blocks)
  end.

Definition emit (e : event) : io unit := ([e], Ret tt).

Definition lift {A : Type} (r : result A) : io A := ([], r).

Notation "'do' x <- m ;; k" := (iobind m (fun x => k))
  (at level 10, x name, m at level 100, k at level 200).
Notation "'send' e ;; k" := (iobind (emit e) (fun _ => k))
  (at level 10, e at level 100, k at level 200).

(** An [*http.Response]. *)
Record Response : Type := mkResponse {
  Status : gostring;
  StatusCode : Z;
  Header : gostring -> gostring;
  Body : body
}.

(** What the HTTP client, the temporary directory and the progress
    goroutine answer during one [httpGet].  A call that returns a pointer
    and an error answers with the pair, [None] for nil. *)
Record HttpWorld : Type := mkHttpWorld {
  (** [http.Head(url)] *)
  http_Head : gostring -> option Response * option gostring;
  (** [ioutil.TempFile(os.TempDir(), "ipfs")] *)
  TempFile : option file * option gostring;
  (** [http.NewRequest("GET", url, nil)]: the error, if the URL is refused *)
  http_NewRequest : gostring -> option gostring;
  (** [http.DefaultClient.Do(req)] *)
  http_Do : gostring -> option Response * option gostring;
  (** whether [PrintProgress] still runs when [done <- n] is reached: it
      returns early when it cannot open or stat the temporary file *)
  reporter_receives : bool
}.

(** The process environment, the file system, the local daemon and the
    spawned commands. *)
Record World : Type := mkWorld {
  Getenv : gostring -> gostring;
  Environ : list gostring;
  ReadFile : gostring -> gostring + gostring;
  IsUp : gostring -> bool;
  Cat : gostring -> gostring -> body + gostring;
  CombinedOutput : gostring -> list gostring -> list gostring
                   -> gostring * option gostring;
  http : HttpWorld
}.

(** A nil pointer is [None]; using what it points to panics. *)
Definition deref {A : Type} (p : option A) : result A :=
  match p with
  | Some a => Ret a
  | None => Panics NilDereference
  end.

Definition NumError_text (e : NumError) : gostring :=
  match e with
  | ErrSyntax => str "invalid syntax"
  | ErrRange => str "value out of range"
  end.

Definition GlobalGatewayUrl : gostring := str "https://ipfs.io".

Definition readAllMinRead : nat := 512.

Section Package.

(** Library and sibling-package functions the package only passes values
    through: [strconv.Quote] (also behind the verb [%q]), [filepath.Join],
    and [config.GetUserAgent()]. *)
Variable Quote : gostring -> gostring.
Variable filepath_Join : gostring -> gostring -> gostring.
Variable GetUserAgent : gostring.

(** The text of the [*strconv.NumError] that [Atoi] returns for [s]. *)
Definition Atoi_error (s : gostring) (e : NumError) : error :=
  Error (str "strconv.Atoi: parsing " ++ Quote s ++ str ": " ++ NumError_text e).

(** ** [ApiEndpoint] *)

Definition ApiEndpoint (w : World) (ipfspath : gostring)
  : io (gostring * option error) :=
  let apifile := filepath_Join ipfspath (str "api") in
  send (ReadFileEv apifile) ;;
  match ReadFile w apifile with
  | inr err => ioret ([], Some (Error err))
  | inl val =>
      let parts := Split val "/" in
      if negb (length parts =? 5)%nat then
        ioret ([], Some (Error (str "incorrectly formatted api string: "
                                 ++ Quote val)))
      else
        do host <- lift (index parts 2) ;;
        do port <- lift (index parts 4) ;;
        ioret (host ++ str ":" ++ port, None)
  end.

(** ** [httpGet] *)

Definition httpGet (w : HttpWorld) (url : gostring)
  : io (option Response * option error) :=
  (* headResponse, err := http.Head(url) *)
  send (GatewayHeadEv url) ;;
  let '(headResponse, _) := http_Head w url in
  (* out, err := ioutil.TempFile(os.TempDir(), "ipfs"): err is assigned anew *)
  let '(out, err) := TempFile w in
  (* defer os.Remove(out.Name()): out.Name() is evaluated here *)
  do f <- lift (deref out) ;;
  match err with
  | Some e => ioret (None, Some (Error (str "http.Head error: " ++ e)))
  | None =>
      (* headResponse.Header.Get("Content-Length") *)
      do hr <- lift (deref headResponse) ;;
      let cl := Header hr (str "Content-Length") in
      match Atoi cl with
      | inr e =>
          ioret (None, Some (Error (str "http.Head Content-Length error: "
                                     ++ error_text (Atoi_error cl e))))
      | inl size =>
          (* go PrintProgress(done, out.Name(), int64(size)) *)
          match http_NewRequest w url with
          | Some e =>
              ioret (None, Some (Error (str "http.NewRequest error: " ++ e)))
          | None =>
              send (GatewayGetEv url GetUserAgent) ;;
              let '(resp, err) := http_Do w url in
              match err with
              | Some e =>
                  ioret (None, Some (Error (str "http.DefaultClient.Do error: "
                                             ++ e)))
              | None =>
                  do r <- lift (deref resp) ;;
                  (* n, err := io.Copy(out, resp.Body) *)
                  do c <- lift (Copy (S (length (pending (Body r)))) f (Body r) 0) ;;
                  let '(n, err, _, body') := c in
                  match err with
                  | Some e =>
                      ioret (None,
                             Some (Error (str "Error writing temp file to disk: "
                                          ++ error_text e)))
                  | None =>
                      (* done <- n *)
                      if reporter_receives w then
                        ioret (Some (mkResponse (Status r) (StatusCode r)
                                                (Header r) body'), None)
                      else lift Blocks
                  end
              end
          end
      end
  end.

(** ** [httpFetch] *)

Definition httpFetch (w : HttpWorld) (url : gostring)
  : io (option (limitReadCloser body) * option error) :=
  do g <- httpGet w url ;;
  let '(resp, err) := g in
  match err with
  | Some e => ioret (None, Some e)
  | None =>
      do r <- lift (deref resp) ;;
      if StatusCode r >=? 400 then
        do a <- lift (ReadAll (S (length (pending (Body r)))) readAllMinRead
                              (Body r) []) ;;
        let '(mes, err, _) := a in
        match err with
        | Some e =>
            ioret (None, Some (Error (str "error reading error body: "
                                       ++ error_text e)))
        | None =>
            ioret (None, Some (Error (Status r ++ str ": " ++ mes)))
        end
      else ioret (Some (newLimitReadCloser (Body r) fetchSizeLimit), None)
  end.

(** ** [IpfsDir] and [Fetch] *)

Definition IpfsDir (w : World) : gostring :=
  let def := filepath_Join (Getenv w (str "HOME")) (str ".ipfs") in
  let ipfs_path := Getenv w (str "IPFS_PATH") in
  match ipfs_path with
  | [] => def
  | _ => ipfs_path
  end.

Definition Fetch (w : World) (ipfspath : gostring)
  : io (option (limitReadCloser body) * option error) :=
  do a <- ApiEndpoint w (IpfsDir w) ;;
  let '(ep, err) := a in
  let gateway := httpFetch (http w) (GlobalGatewayUrl ++ ipfspath) in
  match err with
  | None =>
      (* sh := api.NewShell(ep); sh.IsUp() *)
      send (DaemonIsUpEv ep) ;;
      if IsUp w ep then
        send (DaemonCatEv ep ipfspath) ;;
        match Cat w ep ipfspath with
        | inr e => ioret (None, Some (Error e))
        | inl rc => ioret (Some (newLimitReadCloser rc fetchSizeLimit), None)
        end
      else gateway
  | Some _ => gateway
  end.

End Package.

(** ** [RunCmd] *)

Definition newline : ascii := "010".

Definition RunCmd (w : World) (p bin : gostring) (args : list gostring)
  : result (gostring * option error) :=
  let env := Environ w ++ [str "IPFS_PATH=" ++ p] in
  let '(out, err) := CombinedOutput w bin args env in
  match err with
  | Some e => Ret ([], Some (Error (e ++ str ": " ++ out)))
  | None =>
      got c <- index out (Z.of_nat (length out) - 1) ;;
      if Ascii.eqb c newline then
        got s <- slice_to out (Z.of_nat (length out) - 1) ;;
        Ret (s, None)
      else Ret (out, None)
  end.

(** ** The file system of [CopyTo] and [Move] *)

Definition path_eq_dec : forall a b : gostring, {a = b} + {a <> b} :=
  list_eq_dec ascii_dec.

(** A disk: its regular files, each known by its path (two paths are two
    files), and what it refuses: the paths [os.Create] cannot open, the
    paths [os.Remove] cannot remove, and the error of any write of at least
    one byte (a full disk), each with the text of the error. *)
Record Disk : Type := mkDisk {
  files : gostring -> option gostring;
  create_error : gostring -> option gostring;
  remove_error : gostring -> option gostring;
  full : option gostring
}.

Definition set_file (d : Disk) (p : gostring) (c : option gostring) : Disk :=
  mkDisk (fun q => if path_eq_dec q p then c else files d q)
         (create_error d) (remove_error d) (full d).

(** An open [os.File]: the file and the offset of the next byte. *)
Record handle : Type := mkHandle {
  hpath : gostring;
  hoff : nat
}.

Definition file_contents (d : Disk) (p : gostring) : gostring :=
  match files d p with
  | Some c => c
  | None => []
  end.

(** [os.Open(name)] *)
Definition os_Open (d : Disk) (name : gostring) : handle + error :=
  match files d name with
  | Some _ => inl (mkHandle name 0)
  | None => inr (Error (str "open " ++ name ++ str ": no such file or directory"))
  end.

(** [os.Create(name)]: the file is created, or truncated if it exists. *)
Definition os_Create (d : Disk) (name : gostring) : Disk * handle + error :=
  match create_error d name with
  | Some msg => inr (Error msg)
  | None => inl (set_file d name (Some []), mkHandle name 0)
  end.

(** [os.Remove(name)] *)
Definition os_Remove (d : Disk) (name : gostring) : option error * Disk :=
  match files d name with
  | None =>
      (Some (Error (str "remove " ++ name ++ str ": no such file or directory")), d)
  | Some _ =>
      match remove_error d name with
      | Some msg => (Some (Error msg), d)
      | None => (None, set_file d name None)
      end
  end.

(** [os.File.Read] into a buffer of [n] bytes. *)
Definition handle_Read (d : Disk) (h : handle) (n : nat)
  : gostring * option error * handle :=
  match n with
  | O => ([], None, h)
  | _ =>
      match firstn n (skipn (hoff h) (file_contents d (hpath h))) with
      | [] => ([], Some EOF, h)
      | bs => (bs, None, mkHandle (hpath h) (hoff h + length bs))
      end
  end.

(** [os.File.Write]: the bytes go to the offset of the handle, over
    what the file holds there, after zero bytes if the file is shorter. *)
Definition handle_Write (d : Disk) (h : handle) (bs : gostring)
  : option error * Disk * handle :=
  match full d with
  | Some msg => (Some (Error msg), d, h)
  | None =>
      let c := file_contents d (hpath h) in
      let c' := firstn (hoff h) c ++ repeat zero (hoff h - length c)
                ++ bs ++ skipn (hoff h + length bs) c in
      (None, set_file d (hpath h) (Some c'),
       mkHandle (hpath h) (hoff h + length bs))
  end.

(** [io.Copy(dst, src)] between two open files of one disk. *)
Fixpoint copy_files (fuel : nat) (d : Disk) (dst src : handle) (written : Z)
  : result (Z * option error * Disk) :=
  match fuel with
  | O => Blocks
  | S fuel' =>
      let '(bs, er, src') := handle_Read d src copyBufferSize in
      let '(ew, d', dst') :=
        match bs with
        | [] => (None, d, dst)
        | _ => handle_Write d dst bs
        end in
      match ew with
      | Some e => Ret (written, Some e, d')
      | None =>
          let written' := written + Z.of_nat (length bs) in
          match er with
          | Some EOF => Ret (written', None, d')
          | Some e => Ret (written', Some e, d')
          | None => copy_files fuel' d' dst' src' written'
          end
      end
  end.

(** ** [CopyTo] and [Move] *)

Definition CopyTo (d : Disk) (src dest : gostring) : result (option error * Disk) :=
  match os_Open d src with
  | inr err => Ret (Some err, d)
  | inl fi =>
      match os_Create d dest with
      | inr err => Ret (Some err, d)
      | inl (d1, trgt) =>
          got c <- copy_files (S (length (file_contents d1 src))) d1 trgt fi 0 ;;
          let '(_, err, d2) := c in
          Ret (err, d2)
      end
  end.

Definition Move (d : Disk) (src dest : gostring) : result (option error * Disk) :=
  got c <- CopyTo d src dest ;;
  let '(err, d1) := c in
  match err with
  | Some e => Ret (Some e, d1)
  | None => Ret (os_Remove d1 src)
  end.

(** ** [PrintProgress] *)





(** * Vocabulary of the properties *)

(** ** Version strings *)

Definition is_digit (c : ascii) : bool :=
  match digit_of c with
  | Some _ => true
  | None => false
  end.

(** A numeric component: a non-empty run of decimal digits. *)
Definition numeric (d : gostring) : bool :=
  match d with
  | [] => false
  | _ => forallb is_digit d
  end.

Definition digit_value (c : ascii) : Z :=
  match digit_of c with
  | Some d => d
  | None => 0
  end.

(** The number a run of digits denotes, continuing from [n]. *)
Definition value_from (n : Z) (d : gostring) : Z :=
  fold_left (fun a c => a * 10 + digit_value c) d n.

Definition value (d : gostring) : Z := value_from 0 d.

(** A numeric component whose value fits [int]. *)
Definition component (d : gostring) : bool :=
  numeric d && (value d <=? maxInt).

(** The version string with prefix byte [p] and components [x], [y], [z]. *)
Definition version (p : ascii) (x y z : gostring) : gostring :=
  p :: x ++ "."%char :: y ++ "."%char :: z.

(** The first position at which two lists of numbers differ. *)
Fixpoint first_difference (c d : list Z) : option (Z * Z) :=
  match c, d with
  | x :: c', y :: d' => if x =? y then first_difference c' d' else Some (x, y)
  | _, _ => None
  end.

Definition is_error {A E : Type} (r : A + E) : bool :=
  match r with
  | inl _ => false
  | inr _ => true
  end.

(** No byte of [s] is the separator. *)
Definition free_of_sep (sep : ascii) (s : gostring) : bool :=
  forallb (fun c => negb (Ascii.eqb c sep)) s.

(** The dot-separated fields [BeforeVersion] reads from its argument. *)
Definition fields (s : gostring) : list gostring := Split (skipn 1 s) ".".

(** ** Command output *)

(** The output without its final newline, if it ends in one. *)
Definition trimmed (out : gostring) : gostring :=
  if Ascii.eqb (last out newline) newline then removelast out else out.

(** ** Streams *)

(** A reader that holds a stream of bytes, [content r] being those it has
    still to deliver: asked for at least one byte while bytes remain, it
    hands over at least one and at most as many as asked, in order, and
    reports no error as long as bytes remain after them. *)
Definition delivers {R : Type} `{Reader R} (content : R -> gostring) : Prop :=
  forall (r : R) (n : nat), (0 < n)%nat -> content r <> [] ->
    exists bs e r',
      Read r n = (bs, e, r') /\ bs <> [] /\ (length bs <= n)%nat /\
      content r = bs ++ content r' /\ (content r' <> [] -> e = None).

(** A body that was read to its end without error has nothing pending
    and ends in [io.EOF]. *)
Definition drained (b : body) : Prop := pending b = [] /\ failure b = None.

(** ** Discovery *)

(** The file [ApiEndpoint] reads for the directory [IpfsDir] gives. *)
Definition apifile (filepath_Join : gostring -> gostring -> gostring)
    (w : World) : gostring :=
  filepath_Join (IpfsDir filepath_Join w) (str "api").

(** ** Sample worlds *)

Definition sample_Quote (s : gostring) : gostring :=
  "034"%char :: s ++ ["034"%char].

Definition sample_Join (a b : gostring) : gostring := a ++ "/"%char :: b.

Definition sample_UserAgent : gostring := str "ipfs-update".

Definition sample_header (length : string) (key : gostring) : gostring :=
  if String.eqb (string_of_list_ascii key) "Content-Length" then str length
  else [].

Definition sample_tempfile : file := mkFile (str "/tmp/ipfs123") [] None.

(** A gateway that answers HEAD and GET with [status], [code] and the body
    [text], handed over two bytes at a time. *)
Definition gateway_answering (status : string) (code : Z) (length text : string)
  : HttpWorld :=
  {| http_Head := fun _ =>
       (Some (mkResponse (str status) code (sample_header length)
                         (mkBody [] 1 None)), None);
     TempFile := (Some sample_tempfile, None);
     http_NewRequest := fun _ => None;
     http_Do := fun _ =>
       (Some (mkResponse (str status) code (sample_header length)
                         (mkBody (str text) 1 None)), None);
     reporter_receives := true |}.

(** A gateway that refuses the connection. *)
Definition gateway_refusing : HttpWorld :=
  {| http_Head := fun _ => (None, Some (str "dial tcp: connection refused"));
     TempFile := (Some sample_tempfile, None);
     http_NewRequest := fun _ => None;
     http_Do := fun _ => (None, Some (str "dial tcp: connection refused"));
     reporter_receives := true |}.

(** A machine whose api file holds [api] (or is missing), whose daemon is
    up or not and serves [served], and whose commands print [printed]. *)
Definition machine (api : option string) (up : bool) (served : string)
    (printed : gostring) (gateway : HttpWorld) : World :=
  {| Getenv := fun k =>
       if String.eqb (string_of_list_ascii k) "HOME" then str "/home/u" else [];
     Environ := [str "HOME=/home/u"];
     ReadFile := fun _ =>
       match api with
       | Some a => inl (str a)
       | None => inr (str "open /home/u/.ipfs/api: no such file or directory")
       end;
     IsUp := fun _ => up;
     Cat := fun _ _ => inl (mkBody (str served) 0 None);
     CombinedOutput := fun _ _ _ => (printed, None);
     http := gateway |}.

Definition sample_url : gostring := str "https://ipfs.io/ipns/dist.ipfs.io".

Definition spent_stream : limitReadCloser body :=
  newLimitReadCloser (mkBody [] 1 None) fetchSizeLimit.

Definition no_api_file : World :=
  machine None false "" [] (gateway_answering "200 OK" 200 "5" "hello").

Definition daemon_up : World :=
  machine (Some "/ip4/127.0.0.1/tcp/5001"%string) true "data" [] gateway_refusing.

(** ** Versions as triples *)

(** A version string taken apart: the prefix byte and the three components. *)
Record triple : Type := mkTriple {
  tprefix : ascii;
  major : gostring;
  minor : gostring;
  patch : gostring
}.

Definition render (v : triple) : gostring :=
  version (tprefix v) (major v) (minor v) (patch v).

Definition well_formed (v : triple) : bool :=
  component (major v) && component (minor v) && component (patch v).

Definition numbers (v : triple) : list Z :=
  [value (major v); value (minor v); value (patch v)].

(** The lexicographic order on lists of numbers of equal length. *)
Fixpoint lex_lt (x y : list Z) : bool :=
  match x, y with
  | a :: x', b :: y' =>
      if a <? b then true else if b <? a then false else lex_lt x' y'
  | _, _ => false
  end.


(** A gateway whose answer to GET breaks off after [text] with the
    transport error [msg]. *)
Definition gateway_breaking (text msg : string) : HttpWorld :=
  {| http_Head := fun _ =>
       (Some (mkResponse (str "200 OK") 200 (sample_header "5")
                         (mkBody [] 1 None)), None);
     TempFile := (Some sample_tempfile, None);
     http_NewRequest := fun _ => None;
     http_Do := fun _ =>
       (Some (mkResponse (str "200 OK") 200 (sample_header "5")
                         (mkBody (str text) 1 (Some (str msg)))), None);
     reporter_receives := true |}.

(** A gateway that answers as [gateway_answering] while the progress
    reporter has given up. *)
Definition gateway_unreported : HttpWorld :=
  {| http_Head := http_Head (gateway_answering "200 OK" 200 "5" "hello");
     TempFile := (Some sample_tempfile, None);
     http_NewRequest := fun _ => None;
     http_Do := http_Do (gateway_answering "200 OK" 200 "5" "hello");
     reporter_receives := false |}.

(** A reader that never stores more bytes than the buffer holds. *)
Definition honest {R : Type} `{Reader R} : Prop :=
  forall (r : R) (n : nat), (length (fst (fst (Read r n))) <= n)%nat.

(** The world [w] with the api file holding [val]. *)
Definition with_api (w : World) (val : gostring) : World :=
  {| Getenv := Getenv w;
     Environ := Environ w;
     ReadFile := fun _ => inl val;
     IsUp := IsUp w;
     Cat := Cat w;
     CombinedOutput := CombinedOutput w;
     http := http w |}.

(** An api file as go-ipfs writes it, with a final newline. *)
Definition api_with_newline : World :=
  with_api daemon_up (str "/ip4/127.0.0.1/tcp/5001" ++ [newline]).

(** A disk that holds the file [p] with the bytes [c] and refuses nothing. *)
Definition disk_with (p : string) (c : string) : Disk :=
  mkDisk (fun q => if path_eq_dec q (str p) then Some (str c) else None)
         (fun _ => None) (fun _ => None) None.


(** * Properties *)

(** Unfolds the plumbing of [io] in a hypothesis. *)
Ltac unfold_io_in H :=
  cbn [iobind emit lift ioret deref fst snd app] in H.

(** ** Version strings *)

Section SplitFacts.

Variable sep : ascii.

Lemma Split_not_nil (s : gostring) : Split s sep <> [].
Proof.
  induction s as [|c s IH]; simpl; [discriminate|].
  destruct (Ascii.eqb c sep); [discriminate|].
  destruct (Split s sep); discriminate.
Qed.

Lemma Split_free (s : gostring) :
  free_of_sep sep s = true -> Split s sep = [s].
Proof.
  induction s as [|c s IH]; simpl; intros Hs; [reflexivity|].
  apply andb_prop in Hs as [Hc Hs].
  apply negb_true_iff in Hc. rewrite Hc, (IH Hs). reflexivity.
Qed.

Lemma Split_field (x r : gostring) :
  free_of_sep sep x = true -> Split (x ++ sep :: r) sep = x :: Split r sep.
Proof.
  induction x as [|c x IH]; simpl; intros Hx.
  - rewrite Ascii.eqb_refl. reflexivity.
  - apply andb_prop in Hx as [Hc Hx].
    apply negb_true_iff in Hc. rewrite Hc, (IH Hx). reflexivity.
Qed.

(** The fields of [Split] number one more than the separators. *)
Lemma Split_length (s : gostring) :
  length (Split s sep) = S (count_occ ascii_dec s sep).
Proof.
  induction s as [|c s IH]; simpl; [reflexivity|].
  destruct (ascii_dec c sep) as [->|Hne].
  - rewrite Ascii.eqb_refl. simpl. now rewrite IH.
  - apply Ascii.eqb_neq in Hne. rewrite Hne.
    destruct (Split s sep) eqn:E; simpl in *; [discriminate|assumption].
Qed.

End SplitFacts.

Lemma digit_of_range (c : ascii) (d : Z) : digit_of c = Some d -> 0 <= d <= 9.
Proof.
  unfold digit_of. destruct (_ && _) eqn:E; [|discriminate].
  intros [= <-]. apply andb_prop in E as [H1 H2]. lia.
Qed.

Lemma is_digit_not_dot (c : ascii) : is_digit c = true -> Ascii.eqb c "." = false.
Proof.
  intros H. destruct (Ascii.eqb c ".") eqn:E; [|reflexivity].
  apply Ascii.eqb_eq in E. subst c. discriminate H.
Qed.

Lemma is_digit_not_sign (c : ascii) :
  is_digit c = true -> Ascii.eqb c "+" = false /\ Ascii.eqb c "-" = false.
Proof.
  intros H. split.
  - destruct (Ascii.eqb c "+") eqn:E; [|reflexivity].
    apply Ascii.eqb_eq in E. subst c. discriminate H.
  - destruct (Ascii.eqb c "-") eqn:E; [|reflexivity].
    apply Ascii.eqb_eq in E. subst c. discriminate H.
Qed.

Lemma numeric_free_of_dot (d : gostring) :
  numeric d = true -> free_of_sep "." d = true.
Proof.
  intros H. assert (Hd : forallb is_digit d = true) by (destruct d; [discriminate|exact H]).
  clear H. induction d as [|c d IH]; simpl in *; [reflexivity|].
  apply andb_prop in Hd as [Hc Hd].
  rewrite (is_digit_not_dot c Hc), (IH Hd). reflexivity.
Qed.

Lemma value_from_mono (d : gostring) (n : Z) : 0 <= n -> n <= value_from n d.
Proof.
  revert n. induction d as [|c d IH]; simpl; intros n Hn; [lia|].
  unfold value_from in *. simpl.
  assert (0 <= digit_value c).
  { unfold digit_value. destruct (digit_of c) eqn:E; [|lia].
    apply digit_of_range in E. lia. }
  specialize (IH (n * 10 + digit_value c)). lia.
Qed.

Lemma ParseUint_loop_digits (d : gostring) (n : Z) :
  forallb is_digit d = true -> 0 <= n -> value_from n d <= maxUint64 ->
  ParseUint_loop n d = inl (value_from n d).
Proof.
  revert n. induction d as [|c d IH]; intros n Hd Hn Hv; [reflexivity|].
  cbn [forallb] in Hd. apply andb_prop in Hd as [Hc Hd].
  unfold is_digit in Hc. destruct (digit_of c) as [dv|] eqn:E; [|discriminate].
  pose proof (digit_of_range _ _ E) as Hdv.
  assert (Hstep : value_from n (c :: d) = value_from (n * 10 + dv) d).
  { unfold value_from. cbn [fold_left]. unfold digit_value. now rewrite E. }
  rewrite Hstep in *.
  pose proof (value_from_mono d (n * 10 + dv) ltac:(lia)) as Hm.
  cbn [ParseUint_loop]. rewrite E.
  assert (Hmax : maxUint64 = 18446744073709551615) by reflexivity.
  assert (Hcut : maxUint64 / 10 + 1 = 1844674407370955162) by reflexivity.
  rewrite Hcut.
  destruct (n >=? 1844674407370955162) eqn:E1; [lia|].
  destruct (n * 10 + dv >? maxUint64) eqn:E2; [lia|].
  apply IH; [assumption|lia|assumption].
Qed.

Lemma Atoi_component (d : gostring) :
  component d = true -> Atoi d = inl (value d).
Proof.
  unfold component. intros H. apply andb_prop in H as [Hn Hv].
  apply Z.leb_le in Hv.
  destruct d as [|c d]; [discriminate|].
  assert (Hd : forallb is_digit (c :: d) = true) by exact Hn.
  assert (Hc : is_digit c = true) by (simpl in Hd; apply andb_prop in Hd; tauto).
  destruct (is_digit_not_sign c Hc) as [Hp Hm].
  unfold Atoi. rewrite Hp, Hm.
  cbn [orb negb andb].
  assert (Hmax : maxInt = 9223372036854775807) by reflexivity.
  rewrite (ParseUint_loop_digits (c :: d) 0 Hd ltac:(lia)).
  2:{ fold (value (c :: d)). assert (maxUint64 = 18446744073709551615) by reflexivity. lia. }
  fold (value (c :: d)).
  assert (H63 : 2 ^ (intSize - 1) = 9223372036854775808) by reflexivity.
  rewrite H63.
  destruct (value (c :: d) >=? 9223372036854775808) eqn:E; [lia|reflexivity].
Qed.

Lemma Split_version (x y z : gostring) :
  numeric x = true -> numeric y = true -> numeric z = true ->
  Split (x ++ "."%char :: y ++ "."%char :: z) "." = [x; y; z].
Proof.
  intros Hx Hy Hz.
  rewrite Split_field by now apply numeric_free_of_dot.
  rewrite Split_field by now apply numeric_free_of_dot.
  rewrite Split_free by now apply numeric_free_of_dot.
  reflexivity.
Qed.

Lemma BeforeVersion_version (p q : ascii) (a0 a1 a2 b0 b1 b2 : gostring) :
  numeric a0 = true -> numeric a1 = true -> numeric a2 = true ->
  numeric b0 = true -> numeric b1 = true -> numeric b2 = true ->
  BeforeVersion (version p a0 a1 a2) (version q b0 b1 b2) =
  BeforeVersion_loop [a0; a1; a2] [b0; b1; b2] 0 3.
Proof.
  intros. unfold BeforeVersion, version, slice_from.
  cbn [length Nat.leb skipn rbind].
  rewrite !Split_version by assumption. reflexivity.
Qed.

Lemma index_nth {A : Type} (l : list A) (i : nat) (d : A) :
  (i < length l)%nat -> index l (Z.of_nat i) = Ret (nth i l d).
Proof.
  intros Hi. unfold index.
  assert (H0 : (0 <=? Z.of_nat i) = true) by (apply Z.leb_le; lia).
  assert (H1 : (Z.of_nat i <? Z.of_nat (length l)) = true) by (apply Z.ltb_lt; lia).
  rewrite H0, H1, Nat2Z.id. cbn [andb].
  destruct (nth_error l i) as [x|] eqn:E.
  - now rewrite (nth_error_nth _ _ d E).
  - apply nth_error_None in E. lia.
Qed.

Lemma index_out_of_range {A : Type} (l : list A) (i : Z) :
  i < 0 \/ Z.of_nat (length l) <= i -> index l i = Panics IndexOutOfRange.
Proof.
  intros H. unfold index.
  destruct ((0 <=? i) && (i <? Z.of_nat (length l))) eqn:E; [|reflexivity].
  apply andb_prop in E as [E0 E1]. apply Z.leb_le in E0. apply Z.ltb_lt in E1. lia.
Qed.

(** The loop compared with itself never finds a difference. *)
Lemma BeforeVersion_loop_same (parts : list gostring) (n i : nat) :
  (i + n <= length parts)%nat ->
  BeforeVersion_loop parts parts (Z.of_nat i) n = Ret false.
Proof.
  revert i. induction n as [|n IH]; intros i Hi; [reflexivity|].
  cbn [BeforeVersion_loop].
  rewrite (index_nth parts i []) by lia. cbn [rbind].
  destruct (Atoi (nth i parts [])) as [an|e]; [|reflexivity].
  rewrite Z.ltb_irrefl.
  assert (Hgt : (an >? an) = false) by (rewrite Z.gtb_ltb; apply Z.ltb_irrefl).
  rewrite Hgt.
  replace (Z.of_nat i + 1) with (Z.of_nat (S i)) by lia.
  apply IH. lia.
Qed.

(** With enough fields on both sides the loop returns. *)
Lemma BeforeVersion_loop_returns (aparts bparts : list gostring) (n i : nat) :
  (i + n <= length aparts)%nat -> (i + n <= length bparts)%nat ->
  exists b, BeforeVersion_loop aparts bparts (Z.of_nat i) n = Ret b.
Proof.
  revert i. induction n as [|n IH]; intros i Ha Hb; [now exists false|].
  cbn [BeforeVersion_loop].
  rewrite (index_nth aparts i []) by lia. cbn [rbind].
  destruct (Atoi (nth i aparts [])) as [an|e]; [|now exists false].
  rewrite (index_nth bparts i []) by lia. cbn [rbind].
  destruct (Atoi (nth i bparts [])) as [bn|e]; [|now exists false].
  destruct (bn <? an); [now exists true|].
  destruct (bn >? an); [now exists false|].
  replace (Z.of_nat i + 1) with (Z.of_nat (S i)) by lia.
  apply IH; lia.
Qed.

(** A component that [Atoi] rejects, met after [k] pairs of equal numbers,
    ends the loop with [false]. *)
Lemma BeforeVersion_loop_rejects (aparts bparts : list gostring) (k n i : nat) :
  (k < n)%nat ->
  (i + n <= length aparts)%nat -> (i + n <= length bparts)%nat ->
  (forall j, (j < k)%nat ->
     exists m, Atoi (nth (i + j) aparts []) = inl m /\
               Atoi (nth (i + j) bparts []) = inl m) ->
  is_error (Atoi (nth (i + k) aparts [])) ||
  is_error (Atoi (nth (i + k) bparts [])) = true ->
  BeforeVersion_loop aparts bparts (Z.of_nat i) n = Ret false.
Proof.
  revert n i. induction k as [|k IH]; intros n i Hk Ha Hb Heq Herr.
  - destruct n as [|n]; [lia|]. cbn [BeforeVersion_loop].
    rewrite Nat.add_0_r in Herr.
    rewrite (index_nth aparts i []) by lia. cbn [rbind].
    destruct (Atoi (nth i aparts [])) as [an|e]; [|reflexivity].
    rewrite (index_nth bparts i []) by lia. cbn [rbind].
    destruct (Atoi (nth i bparts [])) as [bn|e]; [discriminate Herr|reflexivity].
  - destruct n as [|n]; [lia|]. cbn [BeforeVersion_loop].
    destruct (Heq 0%nat ltac:(lia)) as (m & Hma & Hmb).
    rewrite Nat.add_0_r in Hma, Hmb.
    rewrite (index_nth aparts i []) by lia. cbn [rbind]. rewrite Hma.
    rewrite (index_nth bparts i []) by lia. cbn [rbind]. rewrite Hmb.
    rewrite Z.ltb_irrefl.
    assert (Hgt : (m >? m) = false) by (rewrite Z.gtb_ltb; apply Z.ltb_irrefl).
    rewrite Hgt.
    replace (Z.of_nat i + 1) with (Z.of_nat (S i)) by lia.
    apply IH; try lia.
    + intros j Hj. specialize (Heq (S j) ltac:(lia)).
      now replace (S i + j)%nat with (i + S j)%nat by lia.
    + now replace (S i + k)%nat with (i + S k)%nat by lia.
Qed.

Lemma BeforeVersion_fields (check cur : gostring) :
  (1 <= length check)%nat -> (1 <= length cur)%nat ->
  BeforeVersion check cur =
  BeforeVersion_loop (fields check) (fields cur) 0 3.
Proof.
  intros Hc Hu. unfold BeforeVersion, slice_from, fields.
  destruct (Nat.leb_spec 1 (length check)); [|lia].
  destruct (Nat.leb_spec 1 (length cur)); [|lia].
  reflexivity.
Qed.

Lemma component_numeric (d : gostring) : component d = true -> numeric d = true.
Proof. unfold component. intros H. now apply andb_prop in H. Qed.

(** C1 (as the code has it): for version strings made of a one-byte prefix
    and three components, each a non-empty run of decimal digits whose value
    fits [int], [BeforeVersion check cur] looks at major, then minor, then
    patch, and at the first pair that differs answers [true] when the
    component of [cur] is the smaller one and [false] when it is the larger
    one; with no difference it answers [false]. *)
Theorem BeforeVersion_first_difference
    (p q : ascii) (a0 a1 a2 b0 b1 b2 : gostring) :
  component a0 = true -> component a1 = true -> component a2 = true ->
  component b0 = true -> component b1 = true -> component b2 = true ->
  BeforeVersion (version p a0 a1 a2) (version q b0 b1 b2) =
  Ret match first_difference [value a0; value a1; value a2]
                             [value b0; value b1; value b2] with
      | Some (an, bn) => bn <? an
      | None => false
      end.
Proof.
  intros Ha0 Ha1 Ha2 Hb0 Hb1 Hb2.
  rewrite BeforeVersion_version by now apply component_numeric.
  cbn [BeforeVersion_loop first_difference].
  change (index [a0; a1; a2] 0) with (Ret a0).
  change (index [b0; b1; b2] 0) with (Ret b0).
  change (index [a0; a1; a2] (0 + 1)) with (Ret a1).
  change (index [b0; b1; b2] (0 + 1)) with (Ret b1).
  change (index [a0; a1; a2] (0 + 1 + 1)) with (Ret a2).
  change (index [b0; b1; b2] (0 + 1 + 1)) with (Ret b2).
  cbn [rbind].
  rewrite !Atoi_component by assumption.
  rewrite !Z.gtb_ltb.
  repeat match goal with
  | |- context [Z.eqb ?x ?y] => destruct (Z.eqb_spec x y)
  end;
  repeat match goal with
  | |- context [Z.ltb ?x ?y] => destruct (Z.ltb_spec x y)
  end;
  try reflexivity; exfalso; lia.
Qed.

Lemma BeforeVersion_first_difference_witness :
  component (str "1") = true /\ component (str "2") = true /\
  component (str "3") = true /\ component (str "4") = true /\
  BeforeVersion (str "v1.2.3") (str "v1.2.4") = Ret false.
Proof.
  split; [reflexivity|]. split; [reflexivity|].
  split; [reflexivity|]. split; [reflexivity|].
  exact (BeforeVersion_first_difference "v" "v"
           (str "1") (str "2") (str "3") (str "1") (str "2") (str "4")
           eq_refl eq_refl eq_refl eq_refl eq_refl eq_refl).
Defined.

(** C1, counterexample: [BeforeVersion] answers [false] for "v1.2.3"
    against "v1.2.4" and [true] for "v2.0.0" against "v1.9.9". *)
Lemma BeforeVersion_claimed_instances :
  BeforeVersion (str "v1.2.3") (str "v1.2.4") = Ret false /\
  BeforeVersion (str "v2.0.0") (str "v1.9.9") = Ret true.
Proof. split; reflexivity. Qed.

(** C9: a well-formed version string is never before itself. *)
Theorem BeforeVersion_irreflexive (p : ascii) (x y z : gostring) :
  numeric x = true -> numeric y = true -> numeric z = true ->
  BeforeVersion (version p x y z) (version p x y z) = Ret false.
Proof.
  intros Hx Hy Hz. rewrite BeforeVersion_version by assumption.
  apply (BeforeVersion_loop_same [x; y; z] 3 0). simpl. lia.
Qed.

Lemma BeforeVersion_irreflexive_witness :
  numeric (str "0") = true /\ numeric (str "4") = true /\
  numeric (str "23") = true /\
  BeforeVersion (str "v0.4.23") (str "v0.4.23") = Ret false.
Proof.
  split; [reflexivity|]. split; [reflexivity|]. split; [reflexivity|].
  exact (BeforeVersion_irreflexive "v" (str "0") (str "4") (str "23")
           eq_refl eq_refl eq_refl).
Defined.

(** C4 (as the code has it): on two strings that each hold the prefix byte
    and at least three dot-separated fields after it, [BeforeVersion]
    returns a boolean; and a field that [Atoi] rejects, in either string,
    gives [false] when every pair of fields before it holds two equal
    numbers. *)
Theorem BeforeVersion_returns (check cur : gostring) :
  (1 <= length check)%nat -> (1 <= length cur)%nat ->
  (3 <= length (fields check))%nat -> (3 <= length (fields cur))%nat ->
  (exists b, BeforeVersion check cur = Ret b) /\
  (forall i, (i < 3)%nat ->
     (forall j, (j < i)%nat ->
        exists m, Atoi (nth j (fields check) []) = inl m /\
                  Atoi (nth j (fields cur) []) = inl m) ->
     is_error (Atoi (nth i (fields check) [])) ||
     is_error (Atoi (nth i (fields cur) [])) = true ->
     BeforeVersion check cur = Ret false).
Proof.
  intros Hc Hu Hfc Hfu. rewrite BeforeVersion_fields by assumption. split.
  - apply (BeforeVersion_loop_returns _ _ 3 0); simpl; lia.
  - intros i Hi Heq Herr.
    apply (BeforeVersion_loop_rejects _ _ i 3 0); simpl; try lia; assumption.
Qed.

Lemma BeforeVersion_returns_witness :
  (1 <= length (str "v1.2.x"))%nat /\ (1 <= length (str "v1.2.4"))%nat /\
  (3 <= length (fields (str "v1.2.x")))%nat /\
  (3 <= length (fields (str "v1.2.4")))%nat /\
  (exists b, BeforeVersion (str "v1.2.x") (str "v1.2.4") = Ret b) /\
  BeforeVersion (str "v1.2.x") (str "v1.2.4") = Ret false.
Proof.
  assert (H1 : (1 <= length (str "v1.2.x"))%nat) by (simpl; lia).
  assert (H2 : (1 <= length (str "v1.2.4"))%nat) by (simpl; lia).
  assert (H3 : (3 <= length (fields (str "v1.2.x")))%nat) by (simpl; lia).
  assert (H4 : (3 <= length (fields (str "v1.2.4")))%nat) by (simpl; lia).
  destruct (BeforeVersion_returns (str "v1.2.x") (str "v1.2.4") H1 H2 H3 H4)
    as [Hret Hrej].
  repeat (split; [assumption|]).
  apply (Hrej 2%nat); [lia| |reflexivity].
  intros j Hj. destruct j as [|[|j]]; [now exists 1|now exists 2|lia].
Defined.

(** C4, counterexample: with the non-numeric field "x" in its first
    argument [BeforeVersion] answers [true], the pair of fields before it
    having decided. *)
Lemma BeforeVersion_nonnumeric_true :
  is_error (Atoi (str "x")) = true /\
  BeforeVersion (str "v2.x.0") (str "v1.0.0") = Ret true.
Proof. split; reflexivity. Qed.

(** On an empty first argument the slice [check[1:]] is out of range, and
    on a first argument with fewer than three fields, equal to those of the
    second as far as they go, the index [aparts[i]] is: [BeforeVersion]
    panics. *)
Lemma BeforeVersion_short_input :
  BeforeVersion (str "") (str "v1.2.3") = Panics SliceBoundsOutOfRange /\
  BeforeVersion (str "v1.2") (str "v1.2.3") = Panics IndexOutOfRange.
Proof. split; reflexivity. Qed.

(** A component too large for [int] is rejected by [Atoi] like a
    non-numeric one. *)
Lemma BeforeVersion_out_of_range :
  numeric (str "99999999999999999999") = true /\
  component (str "99999999999999999999") = false /\
  BeforeVersion (str "v99999999999999999999.0.0") (str "v1.0.0") = Ret false.
Proof. repeat split; reflexivity. Qed.

(** ** [RunCmd] *)

Lemma index_last {A : Type} (l : list A) (d : A) :
  l <> [] -> index l (Z.of_nat (length l) - 1) = Ret (last l d).
Proof.
  intros Hl. destruct l as [|x l]; [contradiction|].
  replace (Z.of_nat (length (x :: l)) - 1) with (Z.of_nat (length l))
    by (cbn [length]; lia).
  rewrite (index_nth (x :: l) (length l) d) by (cbn [length]; lia).
  f_equal. clear Hl. revert x. induction l as [|y l IH]; intros x; [reflexivity|].
  change (last (x :: y :: l) d) with (last (y :: l) d).
  cbn [length nth]. apply IH.
Qed.

Lemma slice_to_removelast (l : gostring) :
  l <> [] -> slice_to l (Z.of_nat (length l) - 1) = Ret (removelast l).
Proof.
  intros Hl. unfold slice_to.
  assert (Hpos : (0 < length l)%nat) by (destruct l; [contradiction|cbn; lia]).
  destruct (Z.leb_spec 0 (Z.of_nat (length l) - 1)); [|lia].
  destruct (Z.leb_spec (Z.of_nat (length l) - 1) (Z.of_nat (length l))); [|lia].
  cbn [andb]. rewrite removelast_firstn_len. do 2 f_equal. lia.
Qed.

(** C10: when the spawned command succeeds, [RunCmd] panics on the index
    [out[len(out)-1]] if the combined output is empty, and returns the
    output without its final newline exactly when the output is not empty. *)
Theorem RunCmd_output (w : World) (p bin : gostring) (args : list gostring)
    (out : gostring) :
  CombinedOutput w bin args (Environ w ++ [str "IPFS_PATH=" ++ p]) = (out, None) ->
  RunCmd w p bin args =
  match out with
  | [] => Panics IndexOutOfRange
  | _ => Ret (trimmed out, None)
  end.
Proof.
  intros Hout. unfold RunCmd. rewrite Hout.
  destruct out as [|c out]; [reflexivity|].
  rewrite (index_last (c :: out) newline) by discriminate. cbn [rbind].
  unfold trimmed.
  destruct (Ascii.eqb (last (c :: out) newline) newline); [|reflexivity].
  rewrite slice_to_removelast by discriminate. reflexivity.
Qed.

(** ** Streams *)

Section LimitedStream.

Context {R : Type} `{Reader R}.

(** The bytes a reader has still to deliver. *)
Variable content : R -> gostring.

Hypothesis Hdelivers : delivers content.

Lemma limitReadCloser_Read_spent (r : R) (l : Z) (n : nat) :
  l <= 0 ->
  Read (mkLimitReadCloser (mkLimitedReader r l)) n =
  ([], Some EOF, mkLimitReadCloser (mkLimitedReader r l)).
Proof.
  intros Hl. unfold Read, limitReadCloser_Reader, Read, LimitedReader_Reader,
    LimitedReader_Read. cbn [lrcReader LN LR].
  destruct (Z.leb_spec l 0); [reflexivity|lia].
Qed.

Lemma limitReadCloser_Read_within (r : R) (l bufsize : nat) :
  (0 < l)%nat -> (0 < bufsize)%nat -> (l < length (content r))%nat ->
  exists bs r',
    Read (mkLimitReadCloser (mkLimitedReader r (Z.of_nat l))) bufsize =
    (bs, None, mkLimitReadCloser (mkLimitedReader r' (Z.of_nat (l - length bs)))) /\
    bs <> [] /\ (length bs <= l)%nat /\ content r = bs ++ content r'.
Proof.
  intros Hl Hb Hlen.
  unfold Read at 1, limitReadCloser_Reader, Read at 1, LimitedReader_Reader,
    LimitedReader_Read. cbn [lrcReader LN LR].
  destruct (Z.leb_spec (Z.of_nat l) 0); [lia|].
  set (n' := if Z.of_nat bufsize >? Z.of_nat l then Z.to_nat (Z.of_nat l) else bufsize).
  assert (Hn' : (0 < n' <= l)%nat).
  { subst n'. rewrite Z.gtb_ltb.
    destruct (Z.ltb_spec (Z.of_nat l) (Z.of_nat bufsize)); lia. }
  assert (Hne : content r <> []) by (intros E; rewrite E in Hlen; cbn in Hlen; lia).
  destruct (Hdelivers r n' ltac:(lia) Hne) as (bs & e & r' & HR & Hbs & Hle & Hc & He).
  rewrite HR. exists bs, r'.
  assert (Hrest : content r' <> []).
  { intros E. rewrite Hc, E, app_nil_r in Hlen. lia. }
  rewrite (He Hrest).
  replace (Z.of_nat l - Z.of_nat (length bs)) with (Z.of_nat (l - length bs)) by lia.
  repeat split; try assumption. lia.
Qed.

(** Reading a limited stream to its end: the first [l] bytes, no error. *)
Lemma ReadAll_limited (fuel bufsize : nat) :
  (0 < bufsize)%nat ->
  forall (l : nat) (r : R) (acc : gostring),
    (l < fuel)%nat -> (l < length (content r))%nat ->
    exists r',
      ReadAll fuel bufsize (newLimitReadCloser r (Z.of_nat l)) acc =
      Ret (acc ++ firstn l (content r), None,
           mkLimitReadCloser (mkLimitedReader r' 0)).
Proof.
  intros Hb. induction fuel as [|fuel IH]; intros l r acc Hf Hlen; [lia|].
  unfold newLimitReadCloser, LimitReader in *. cbn [ReadAll].
  destruct l as [|l].
  - rewrite limitReadCloser_Read_spent by lia.
    exists r. cbn [firstn]. reflexivity.
  - destruct (limitReadCloser_Read_within r (S l) bufsize ltac:(lia) Hb Hlen)
      as (bs & r' & HR & Hbs & Hle & Hc).
    rewrite HR.
    assert (Hpos : (0 < length bs)%nat)
      by (destruct bs; [contradiction|simpl; lia]).
    destruct (IH (S l - length bs)%nat r' (acc ++ bs)) as (r'' & HA).
    + lia.
    + rewrite Hc, length_app in Hlen. lia.
    + exists r''. rewrite HA. do 3 f_equal.
      rewrite <- app_assoc. f_equal.
      rewrite Hc, firstn_app.
      rewrite (@firstn_all2 _ (S l) bs) by lia. reflexivity.
Qed.

End LimitedStream.

(** The body of a response holds its pending bytes. *)
Lemma body_delivers : delivers pending.
Proof.
  intros b n Hn Hne. unfold Read, body_Reader, body_Read.
  destruct (pending b) as [|c s] eqn:E; [contradiction|].
  eexists _, _, _. split; [reflexivity|]. cbn [pending].
  assert (Hk : (0 < Nat.min n (S (segment b)))%nat) by lia.
  destruct (Nat.min n (S (segment b))) as [|k] eqn:Ek; [lia|].
  repeat split.
  - discriminate.
  - rewrite length_firstn. lia.
  - now rewrite firstn_skipn.
Qed.

Lemma drained_Read (b : body) (n : nat) : drained b -> Read b n = ([], Some EOF, b).
Proof.
  intros [Hp Hf]. unfold Read, body_Reader, body_Read. now rewrite Hp, Hf.
Qed.

Lemma copyBufferSize_pos : (0 < copyBufferSize)%nat.
Proof. unfold copyBufferSize. lia. Qed.

Lemma body_Read_spent (b : body) (n : nat) :
  pending b = [] ->
  Read b n = ([], Some match failure b with
                       | None => EOF
                       | Some msg => Error msg
                       end, b).
Proof.
  intros Hp. unfold Read, body_Reader, body_Read. now rewrite Hp.
Qed.

Lemma body_Read_pending (b : body) (n : nat) (c : ascii) (s : gostring) :
  pending b = c :: s -> (0 < n)%nat ->
  exists k, Read b n = (c :: firstn k s, None,
                        mkBody (skipn k s) (segment b) (failure b)).
Proof.
  intros Hp Hn. unfold Read, body_Reader, body_Read. rewrite Hp.
  destruct n as [|n]; [lia|]. exists (Nat.min n (segment b)).
  reflexivity.
Qed.

Lemma Copy_body_drained (fuel : nat) :
  forall (dst : file) (src : body) (written n : Z) (dst' : file) (src' : body),
    Copy fuel dst src written = Ret (n, None, dst', src') -> drained src'.
Proof.
  induction fuel as [|fuel IH]; intros dst src written n dst' src' HC;
    [discriminate|].
  cbn [Copy] in HC.
  destruct (pending src) as [|c s] eqn:Ep.
  - rewrite (body_Read_spent src _ Ep) in HC.
    destruct (failure src) eqn:Ef; [discriminate|].
    injection HC as <- <- <-. now split.
  - destruct (body_Read_pending src _ c s Ep copyBufferSize_pos) as [k HR].
    rewrite HR in HC.
    destruct (file_Write dst (c :: firstn k s)) as [[e|] f].
    + discriminate.
    + eapply IH. exact HC.
Qed.

Lemma Copy_body_returns (fuel : nat) :
  forall (dst : file) (src : body) (written : Z),
    (length (pending src) < fuel)%nat ->
    exists res, Copy fuel dst src written = Ret res.
Proof.
  induction fuel as [|fuel IH]; intros dst src written Hf; [lia|].
  cbn [Copy].
  destruct (pending src) as [|c s] eqn:Ep.
  - rewrite (body_Read_spent src _ Ep).
    destruct (failure src); eexists; reflexivity.
  - destruct (body_Read_pending src _ c s Ep copyBufferSize_pos) as [k HR].
    rewrite HR.
    destruct (file_Write dst (c :: firstn k s)) as [[e|] f].
    + eexists; reflexivity.
    + apply IH. cbn [pending]. rewrite length_skipn. cbn [length] in Hf. lia.
Qed.

Lemma ReadAll_drained (fuel bufsize : nat) (b : body) (acc : gostring) :
  drained b -> ReadAll (S fuel) bufsize b acc = Ret (acc, None, b).
Proof.
  intros Hd. cbn [ReadAll]. rewrite (drained_Read b bufsize Hd).
  now rewrite app_nil_r.
Qed.

(** ** The fetch functions *)

Section PackageFacts.

Variable Quote : gostring -> gostring.
Variable filepath_Join : gostring -> gostring -> gostring.
Variable GetUserAgent : gostring.

(** [httpGet] hands back a response only after [io.Copy] has read its body
    to the end. *)
Lemma httpGet_drained (w : HttpWorld) (url : gostring) (r : Response)
    (e : option error) :
  snd (httpGet Quote GetUserAgent w url) = Ret (Some r, e) ->
  e = None /\ drained (Body r).
Proof.
  unfold httpGet. intros H. unfold_io_in H.
  destruct (http_Head w url) as [headResponse e0].
  destruct (TempFile w) as [[f|] [err|]]; unfold_io_in H; try discriminate.
  destruct headResponse as [hr|]; unfold_io_in H; try discriminate.
  destruct (Atoi (Header hr (str "Content-Length"))) as [size|ne];
    unfold_io_in H; try discriminate.
  destruct (http_NewRequest w url) as [e1|]; unfold_io_in H; try discriminate.
  destruct (http_Do w url) as [[resp|] [e2|]]; unfold_io_in H; try discriminate.
  destruct (Copy (S (length (pending (Body resp)))) f (Body resp) 0)
    as [[[[n ce] f'] b']| |] eqn:HC; unfold_io_in H; try discriminate.
  destruct ce as [ce|]; unfold_io_in H; try discriminate.
  destruct (reporter_receives w); unfold_io_in H; try discriminate.
  injection H as <- <-. split; [reflexivity|]. cbn [Body].
  eapply Copy_body_drained. exact HC.
Qed.

(** A limited stream over a drained body is at its end, whatever is left
    of the limit. *)
Lemma limited_drained_Read (b : body) (l : Z) (n : nat) :
  drained b ->
  Read (newLimitReadCloser b l) n = ([], Some EOF, newLimitReadCloser b l).
Proof.
  intros Hd. unfold newLimitReadCloser, LimitReader.
  destruct (Z.leb_spec l 0) as [Hl|Hl].
  - unfold Read, limitReadCloser_Reader, Read, LimitedReader_Reader,
      LimitedReader_Read. cbn [lrcReader LN LR].
    destruct (Z.leb_spec l 0); [reflexivity|lia].
  - unfold Read at 1, limitReadCloser_Reader, Read at 1, LimitedReader_Reader,
      LimitedReader_Read. cbn [lrcReader LN LR].
    destruct (Z.leb_spec l 0); [lia|].
    rewrite (drained_Read b _ Hd). cbn [length Z.of_nat].
    now rewrite Z.sub_0_r.
Qed.

(** [ApiEndpoint] always returns: the host and port fields of a five-field
    file, an error otherwise. *)
Lemma ApiEndpoint_returns (w : World) (dir : gostring) :
  ApiEndpoint Quote filepath_Join w dir =
  ([ReadFileEv (filepath_Join dir (str "api"))],
   Ret match ReadFile w (filepath_Join dir (str "api")) with
       | inr err => ([], Some (Error err))
       | inl val =>
           match Split val "/" with
           | [_; _; host; _; port] => (host ++ str ":" ++ port, None)
           | _ => ([], Some (Error (str "incorrectly formatted api string: "
                                     ++ Quote val)))
           end
       end).
Proof.
  unfold ApiEndpoint. cbn [iobind emit].
  destruct (ReadFile w (filepath_Join dir (str "api"))) as [val|err];
    [|reflexivity].
  destruct (Split val "/") as [|f0 [|f1 [|f2 [|f3 [|f4 [|f5 fs]]]]]];
    reflexivity.
Qed.

Lemma httpFetch_of_httpGet (w : HttpWorld) (url : gostring)
    (t : list event) (r : Response) :
  httpGet Quote GetUserAgent w url = (t, Ret (Some r, None)) ->
  httpFetch Quote GetUserAgent w url =
  (t, Ret (if StatusCode r >=? 400
           then (None, Some (Error (Status r ++ str ": ")))
           else (Some (newLimitReadCloser (Body r) fetchSizeLimit), None))).
Proof.
  intros HG.
  destruct (httpGet_drained w url r None) as [_ Hd]; [now rewrite HG|].
  unfold httpFetch. rewrite HG. cbn [iobind lift deref].
  destruct (StatusCode r >=? 400).
  - rewrite (ReadAll_drained _ _ _ [] Hd). unfold ioret.
    cbv beta iota zeta. now rewrite !app_nil_r.
  - unfold ioret. cbv beta iota zeta. now rewrite !app_nil_r.
Qed.

Lemma httpFetch_inv (w : HttpWorld) (url : gostring)
    (rc : limitReadCloser body) (e : option error) :
  snd (httpFetch Quote GetUserAgent w url) = Ret (Some rc, e) ->
  exists r, snd (httpGet Quote GetUserAgent w url) = Ret (Some r, None) /\
            e = None /\ rc = newLimitReadCloser (Body r) fetchSizeLimit.
Proof.
  intros H.
  destruct (httpGet Quote GetUserAgent w url) as [t g] eqn:HG.
  destruct g as [[[r|] [err|]]| |].
  - unfold httpFetch in H. rewrite HG in H. discriminate H.
  - rewrite (httpFetch_of_httpGet w url t r HG) in H. cbn [snd] in H.
    exists r. split; [reflexivity|].
    destruct (StatusCode r >=? 400); [discriminate|].
    injection H as <- <-. now split.
  - unfold httpFetch in H. rewrite HG in H. discriminate H.
  - unfold httpFetch in H. rewrite HG in H. discriminate H.
  - unfold httpFetch in H. rewrite HG in H. discriminate H.
  - unfold httpFetch in H. rewrite HG in H. discriminate H.
Qed.

(** C2: when [httpFetch] succeeds, [httpGet] had already read the whole
    response body into the temporary file, so the stream handed to the
    caller is at its end: the first [Read] stores no byte and reports
    [io.EOF], and reading the stream to the end yields no byte. *)
Theorem httpFetch_stream_spent (w : HttpWorld) (url : gostring)
    (rc : limitReadCloser body) (e : option error) :
  snd (httpFetch Quote GetUserAgent w url) = Ret (Some rc, e) ->
  (exists r, snd (httpGet Quote GetUserAgent w url) = Ret (Some r, None) /\
             drained (Body r) /\
             rc = newLimitReadCloser (Body r) fetchSizeLimit) /\
  e = None /\
  (forall n, Read rc n = ([], Some EOF, rc)) /\
  (forall fuel bufsize, ReadAll (S fuel) bufsize rc [] = Ret ([], None, rc)).
Proof.
  intros H. destruct (httpFetch_inv w url rc e H) as (r & HG & -> & ->).
  destruct (httpGet_drained w url r None HG) as [_ Hd].
  split; [exists r; split; [exact HG|split; [exact Hd|reflexivity]]|].
  split; [reflexivity|].
  assert (HR : forall n, Read (newLimitReadCloser (Body r) fetchSizeLimit) n =
                         ([], Some EOF, newLimitReadCloser (Body r) fetchSizeLimit))
    by (intros n; now apply limited_drained_Read).
  split; [exact HR|].
  intros fuel bufsize. cbn [ReadAll]. now rewrite HR.
Qed.

(** Every stream [httpFetch] returns carries the ceiling [fetchSizeLimit]. *)
Lemma httpFetch_limit (w : HttpWorld) (url : gostring)
    (rc : limitReadCloser body) (e : option error) :
  snd (httpFetch Quote GetUserAgent w url) = Ret (Some rc, e) ->
  LN (lrcReader rc) = fetchSizeLimit.
Proof.
  intros H. destruct (httpFetch_inv w url rc e H) as (r & _ & _ & ->).
  reflexivity.
Qed.

(** How [Fetch] goes on after [ApiEndpoint]. *)
Lemma Fetch_unfold (w : World) (ipfspath : gostring) :
  Fetch Quote filepath_Join GetUserAgent w ipfspath =
  let gateway := httpFetch Quote GetUserAgent (http w)
                           (GlobalGatewayUrl ++ ipfspath) in
  match ReadFile w (apifile filepath_Join w) with
  | inr _ => (ReadFileEv (apifile filepath_Join w) :: fst gateway, snd gateway)
  | inl val =>
      match Split val "/" with
      | [_; _; host; _; port] =>
          let ep := host ++ str ":" ++ port in
          if IsUp w ep then
            ([ReadFileEv (apifile filepath_Join w); DaemonIsUpEv ep; DaemonCatEv ep ipfspath],
             Ret match Cat w ep ipfspath with
                 | inr e => (None, Some (Error e))
                 | inl rc => (Some (newLimitReadCloser rc fetchSizeLimit), None)
                 end)
          else (ReadFileEv (apifile filepath_Join w) :: DaemonIsUpEv ep :: fst gateway,
                snd gateway)
      | _ => (ReadFileEv (apifile filepath_Join w) :: fst gateway, snd gateway)
      end
  end.
Proof.
  unfold Fetch. rewrite ApiEndpoint_returns. fold (apifile filepath_Join w).
  cbv zeta.
  destruct (httpFetch Quote GetUserAgent (http w) (GlobalGatewayUrl ++ ipfspath))
    as [tg rg] eqn:HF.
  cbn [fst snd].
  destruct (ReadFile w (apifile filepath_Join w)) as [val|err]; cbn [iobind];
    [|reflexivity].
  destruct (Split val "/") as [|f0 [|f1 [|f2 [|f3 [|f4 [|f5 fs]]]]]];
    try reflexivity.
  cbn [emit iobind]. destruct (IsUp w (f2 ++ str ":" ++ f4)).
  - cbn [iobind]. destruct (Cat w (f2 ++ str ":" ++ f4) ipfspath); reflexivity.
  - reflexivity.
Qed.

(** C6: when discovery of the local daemon fails (the api file is missing,
    or its contents do not split into five fields) or the daemon does not
    answer the liveness check, [Fetch] is the gateway fetch: after the
    probing requests, none of them to the gateway, it sends what [httpFetch]
    sends for the gateway URL and ends as [httpFetch] ends, which is computed
    from the HTTP side of the world alone. *)
Theorem Fetch_falls_back (w : World) (ipfspath : gostring) :
  (exists err, ReadFile w (apifile filepath_Join w) = inr err) \/
  (exists val, ReadFile w (apifile filepath_Join w) = inl val /\
               length (Split val "/") <> 5%nat) \/
  (exists val f0 f1 host f3 port,
      ReadFile w (apifile filepath_Join w) = inl val /\
      Split val "/" = [f0; f1; host; f3; port] /\
      IsUp w (host ++ str ":" ++ port) = false) ->
  exists probe,
    forallb (fun e => negb (gateway_event e)) probe = true /\
    Fetch Quote filepath_Join GetUserAgent w ipfspath =
    (probe ++ fst (httpFetch Quote GetUserAgent (http w)
                             (GlobalGatewayUrl ++ ipfspath)),
     snd (httpFetch Quote GetUserAgent (http w) (GlobalGatewayUrl ++ ipfspath))).
Proof.
  intros H. rewrite Fetch_unfold. cbv zeta.
  destruct H as [(err & HR)|[(val & HR & Hlen)|(val & f0 & f1 & h & f3 & p & HR & HS & HU)]];
    rewrite HR.
  - exists [ReadFileEv (apifile filepath_Join w)]. split; reflexivity.
  - exists [ReadFileEv (apifile filepath_Join w)]. split; [reflexivity|].
    destruct (Split val "/") as [|g0 [|g1 [|g2 [|g3 [|g4 [|g5 gs]]]]]];
      try reflexivity.
    now contradiction Hlen.
  - rewrite HS, HU.
    exists [ReadFileEv (apifile filepath_Join w); DaemonIsUpEv (h ++ str ":" ++ p)].
    split; reflexivity.
Qed.

(** C7: when the api file gives an endpoint and the daemon there answers
    the liveness check, [Fetch] sends three requests, to the file system and
    to the daemon, and none to the gateway; it returns the daemon's stream
    under the ceiling, or the daemon's error as it is. *)
Theorem Fetch_local_daemon (w : World) (ipfspath : gostring)
    (val f0 f1 host f3 port : gostring) :
  ReadFile w (apifile filepath_Join w) = inl val ->
  Split val "/" = [f0; f1; host; f3; port] ->
  IsUp w (host ++ str ":" ++ port) = true ->
  fst (Fetch Quote filepath_Join GetUserAgent w ipfspath) =
    [ReadFileEv (apifile filepath_Join w);
     DaemonIsUpEv (host ++ str ":" ++ port);
     DaemonCatEv (host ++ str ":" ++ port) ipfspath] /\
  existsb gateway_event
          (fst (Fetch Quote filepath_Join GetUserAgent w ipfspath)) = false /\
  snd (Fetch Quote filepath_Join GetUserAgent w ipfspath) =
    Ret match Cat w (host ++ str ":" ++ port) ipfspath with
        | inl rc => (Some (newLimitReadCloser rc fetchSizeLimit), None)
        | inr e => (None, Some (Error e))
        end.
Proof.
  intros HR HS HU. rewrite Fetch_unfold. cbv zeta. rewrite HR, HS, HU.
  cbn [fst snd]. split; [reflexivity|]. split; reflexivity.
Qed.

(** Every stream [Fetch] returns carries the ceiling [fetchSizeLimit]. *)
Lemma Fetch_limit (w : World) (ipfspath : gostring)
    (rc : limitReadCloser body) (e : option error) :
  snd (Fetch Quote filepath_Join GetUserAgent w ipfspath) = Ret (Some rc, e) ->
  LN (lrcReader rc) = fetchSizeLimit.
Proof.
  rewrite Fetch_unfold. cbv zeta. intros H.
  assert (HG : forall t : list event,
    snd (t, snd (httpFetch Quote GetUserAgent (http w)
                           (GlobalGatewayUrl ++ ipfspath))) = Ret (Some rc, e) ->
    LN (lrcReader rc) = fetchSizeLimit).
  { intros t Ht. cbn [snd] in Ht. eapply httpFetch_limit. exact Ht. }
  destruct (ReadFile w (apifile filepath_Join w)) as [val|err]; [|now apply HG in H].
  destruct (Split val "/") as [|f0 [|f1 [|f2 [|f3 [|f4 [|f5 fs]]]]]];
    try (now apply HG in H).
  destruct (IsUp w (f2 ++ str ":" ++ f4)); [|now apply HG in H].
  cbn [snd] in H.
  destruct (Cat w (f2 ++ str ":" ++ f4) ipfspath); [|discriminate].
  injection H as <- <-. reflexivity.
Qed.

(** When the HEAD request fails, [httpGet] does not look at its error: the
    error variable is assigned again by [ioutil.TempFile], and the nil
    response (or the nil file) is used. *)
Lemma httpGet_head_failure (w : HttpWorld) (url e : gostring) :
  http_Head w url = (None, Some e) ->
  (exists f, TempFile w = (Some f, None)) \/
  (exists e', TempFile w = (None, Some e')) ->
  httpGet Quote GetUserAgent w url =
  ([GatewayHeadEv url], Panics NilDereference).
Proof.
  intros HH [[f HT]|[e' HT]]; unfold httpGet; rewrite HH, HT; reflexivity.
Qed.

(** The fuel given to [io.Copy] is enough: [httpGet] blocks only on the
    send [done <- n], when [PrintProgress] is gone. *)
Lemma httpGet_Blocks (w : HttpWorld) (url : gostring) :
  snd (httpGet Quote GetUserAgent w url) = Blocks ->
  reporter_receives w = false.
Proof.
  unfold httpGet. intros H. unfold_io_in H.
  destruct (http_Head w url) as [headResponse e0].
  destruct (TempFile w) as [[f|] [err|]]; unfold_io_in H; try discriminate.
  destruct headResponse as [hr|]; unfold_io_in H; try discriminate.
  destruct (Atoi (Header hr (str "Content-Length"))) as [size|ne];
    unfold_io_in H; try discriminate.
  destruct (http_NewRequest w url) as [e1|]; unfold_io_in H; try discriminate.
  destruct (http_Do w url) as [[resp|] [e2|]]; unfold_io_in H; try discriminate.
  destruct (Copy_body_returns (S (length (pending (Body resp)))) f (Body resp) 0)
    as [[[[n ce] f'] b'] HC]; [lia|].
  rewrite HC in H. unfold_io_in H.
  destruct ce as [ce|]; unfold_io_in H; try discriminate.
  destruct (reporter_receives w); [discriminate|reflexivity].
Qed.

(** [httpFetch] blocks only where [httpGet] does. *)
Lemma httpFetch_Blocks (w : HttpWorld) (url : gostring) :
  snd (httpFetch Quote GetUserAgent w url) = Blocks ->
  reporter_receives w = false.
Proof.
  intros H. apply (httpGet_Blocks w url).
  destruct (httpGet Quote GetUserAgent w url) as [t g] eqn:HG.
  destruct g as [[[r|] [err|]]| |]; try reflexivity;
    try (unfold httpFetch in H; rewrite HG in H; discriminate H).
  rewrite (httpFetch_of_httpGet w url t r HG) in H. discriminate H.
Qed.

End PackageFacts.

(** C5: a stream of [N + K] bytes, [K > 0], read to its end through
    [newLimitReadCloser] with ceiling [N], gives its first [N] bytes and
    then the end of the stream, with no error; and the ceiling of every
    stream that [httpFetch] and [Fetch] return is [fetchSizeLimit],
    512 MiB. *)
Theorem limited_stream_truncates :
  (fetchSizeLimit = 1024 * 1024 * 512 /\ fetchSizeLimit = 512 * 2 ^ 20 /\
   (forall Quote GetUserAgent w url rc e,
       snd (httpFetch Quote GetUserAgent w url) = Ret (Some rc, e) ->
       LN (lrcReader rc) = fetchSizeLimit) /\
   (forall Quote filepath_Join GetUserAgent w ipfspath rc e,
       snd (Fetch Quote filepath_Join GetUserAgent w ipfspath) = Ret (Some rc, e) ->
       LN (lrcReader rc) = fetchSizeLimit)) /\
  (forall (R : Type) (HR : Reader R) (content : R -> gostring),
      delivers content ->
      forall (r : R) (N K bufsize fuel : nat),
        length (content r) = (N + K)%nat -> (0 < K)%nat ->
        (0 < bufsize)%nat -> (N < fuel)%nat ->
        exists rc',
          ReadAll fuel bufsize (newLimitReadCloser r (Z.of_nat N)) [] =
            Ret (firstn N (content r), None, rc') /\
          length (firstn N (content r)) = N /\
          (forall n, Read rc' n = ([], Some EOF, rc'))).
Proof.
  split.
  - split; [reflexivity|]. split; [reflexivity|]. split.
    + intros. eapply httpFetch_limit. eassumption.
    + intros. eapply Fetch_limit. eassumption.
  - intros R HR content Hd r N K bufsize fuel Hlen HK Hb Hf.
    destruct (ReadAll_limited content Hd fuel bufsize Hb N r [] Hf ltac:(lia))
      as (r' & HA).
    eexists. split; [exact HA|]. split.
    + rewrite length_firstn. lia.
    + intros n. apply limitReadCloser_Read_spent. lia.
Qed.

(** * The properties on the sample worlds *)

Lemma httpFetch_stream_spent_witness :
  snd (httpFetch sample_Quote sample_UserAgent
                 (gateway_answering "200 OK" 200 "5" "hello") sample_url)
    = Ret (Some spent_stream, None) /\
  Read spent_stream 16 = ([], Some EOF, spent_stream) /\
  ReadAll 1 512 spent_stream [] = Ret ([], None, spent_stream).
Proof.
  split; [vm_compute; reflexivity|].
  destruct (httpFetch_stream_spent sample_Quote sample_UserAgent
              (gateway_answering "200 OK" 200 "5" "hello") sample_url
              spent_stream None) as (_ & _ & HR & HA).
  - vm_compute; reflexivity.
  - split; [apply HR|apply HA].
Defined.

Lemma limited_stream_truncates_witness :
  delivers pending /\
  exists rc',
    ReadAll 4 2 (newLimitReadCloser (mkBody (str "hello") 1 None) 3) [] =
      Ret (str "hel", None, rc') /\
    length (str "hel") = 3%nat /\
    (forall n, Read rc' n = ([], Some EOF, rc')).
Proof.
  split; [exact body_delivers|].
  destruct limited_stream_truncates as [_ H].
  apply (H body _ pending body_delivers (mkBody (str "hello") 1 None)
           3%nat 2%nat 2%nat 4%nat); [reflexivity|lia|lia|lia].
Defined.

Lemma Fetch_falls_back_witness :
  (exists err, ReadFile no_api_file (apifile sample_Join no_api_file) = inr err) /\
  exists probe,
    forallb (fun e => negb (gateway_event e)) probe = true /\
    Fetch sample_Quote sample_Join sample_UserAgent no_api_file
          (str "/ipns/dist.ipfs.io") =
    (probe ++ fst (httpFetch sample_Quote sample_UserAgent (http no_api_file)
                             (GlobalGatewayUrl ++ str "/ipns/dist.ipfs.io")),
     snd (httpFetch sample_Quote sample_UserAgent (http no_api_file)
                    (GlobalGatewayUrl ++ str "/ipns/dist.ipfs.io"))).
Proof.
  assert (H : exists err,
             ReadFile no_api_file (apifile sample_Join no_api_file) = inr err)
    by (eexists; reflexivity).
  split; [exact H|].
  exact (Fetch_falls_back sample_Quote sample_Join sample_UserAgent no_api_file
           (str "/ipns/dist.ipfs.io") (or_introl H)).
Defined.

Lemma Fetch_local_daemon_witness :
  ReadFile daemon_up (apifile sample_Join daemon_up)
    = inl (str "/ip4/127.0.0.1/tcp/5001") /\
  IsUp daemon_up (str "127.0.0.1:5001") = true /\
  existsb gateway_event
    (fst (Fetch sample_Quote sample_Join sample_UserAgent daemon_up
                (str "/ipns/dist.ipfs.io"))) = false /\
  snd (Fetch sample_Quote sample_Join sample_UserAgent daemon_up
             (str "/ipns/dist.ipfs.io")) =
    Ret (Some (newLimitReadCloser (mkBody (str "data") 0 None) fetchSizeLimit),
         None).
Proof.
  split; [reflexivity|]. split; [reflexivity|].
  destruct (Fetch_local_daemon sample_Quote sample_Join sample_UserAgent
              daemon_up (str "/ipns/dist.ipfs.io")
              (str "/ip4/127.0.0.1/tcp/5001")
              (str "") (str "ip4") (str "127.0.0.1") (str "tcp") (str "5001")
              eq_refl eq_refl eq_refl) as (_ & Hgw & Hret).
  split; [exact Hgw|exact Hret].
Defined.

Lemma RunCmd_output_witness :
  RunCmd (machine None false "" [] gateway_refusing)
         (str "/home/u/.ipfs") (str "ipfs") [str "version"]
    = Panics IndexOutOfRange /\
  RunCmd (machine None false "" (str "ipfs version 0.4.23" ++ [newline])
                         gateway_refusing)
         (str "/home/u/.ipfs") (str "ipfs") [str "version"]
    = Ret (str "ipfs version 0.4.23", None).
Proof.
  split.
  - exact (RunCmd_output (machine None false "" [] gateway_refusing)
             (str "/home/u/.ipfs") (str "ipfs") [str "version"] [] eq_refl).
  - exact (RunCmd_output (machine None false "" (str "ipfs version 0.4.23" ++ [newline])
                         gateway_refusing)
             (str "/home/u/.ipfs") (str "ipfs") [str "version"] _ eq_refl).
Defined.

(** C3, on the code: a HEAD request that fails with "connection refused"
    ends [httpGet], and with it [httpFetch] and the [Fetch] that falls back
    to the gateway, in a nil dereference; no error is returned. *)
Theorem httpGet_head_refused :
  httpGet sample_Quote sample_UserAgent gateway_refusing sample_url
    = ([GatewayHeadEv sample_url], Panics NilDereference) /\
  snd (httpFetch sample_Quote sample_UserAgent gateway_refusing sample_url)
    = Panics NilDereference /\
  snd (Fetch sample_Quote sample_Join sample_UserAgent
             (machine None false "" [] gateway_refusing)
             (str "/ipns/dist.ipfs.io"))
    = Panics NilDereference.
Proof.
  split; [|split; vm_compute; reflexivity].
  apply (httpGet_head_failure _ _ _ _ (str "dial tcp: connection refused"));
    [reflexivity|left; eexists; reflexivity].
Qed.

(** C8, on the code: for a gateway answer "404 Not Found" with a body,
    [httpFetch] returns no stream and an error that holds the status and
    nothing of the body, which [httpGet] had already read to its end. *)
Theorem httpFetch_error_status_without_body :
  snd (httpFetch sample_Quote sample_UserAgent
         (gateway_answering "404 Not Found" 404 "21" "ipfs resolve: no link")
         sample_url)
    = Ret (None, Some (Error (str "404 Not Found: "))).
Proof. vm_compute. reflexivity. Qed.

(** * Further properties *)

(** ** [BeforeVersion] as an order *)

Lemma well_formed_components (v : triple) :
  well_formed v = true ->
  component (major v) = true /\ component (minor v) = true /\
  component (patch v) = true.
Proof.
  unfold well_formed. intros H.
  apply andb_prop in H as [H Hp]. apply andb_prop in H as [Hx Hy]. tauto.
Qed.

(** On well-formed strings [BeforeVersion check cur] is the lexicographic
    order between the numbers of [cur] and those of [check]. *)
Lemma BeforeVersion_render (a b : triple) :
  well_formed a = true -> well_formed b = true ->
  BeforeVersion (render a) (render b) = Ret (lex_lt (numbers b) (numbers a)).
Proof.
  intros Ha Hb.
  destruct (well_formed_components a Ha) as (Ha0 & Ha1 & Ha2).
  destruct (well_formed_components b Hb) as (Hb0 & Hb1 & Hb2).
  unfold render. rewrite BeforeVersion_version by now apply component_numeric.
  cbn [BeforeVersion_loop].
  change (index [major a; minor a; patch a] 0) with (Ret (major a)).
  change (index [major b; minor b; patch b] 0) with (Ret (major b)).
  change (index [major a; minor a; patch a] (0 + 1)) with (Ret (minor a)).
  change (index [major b; minor b; patch b] (0 + 1)) with (Ret (minor b)).
  change (index [major a; minor a; patch a] (0 + 1 + 1)) with (Ret (patch a)).
  change (index [major b; minor b; patch b] (0 + 1 + 1)) with (Ret (patch b)).
  cbn [rbind]. rewrite !Atoi_component by assumption.
  unfold numbers. cbn [lex_lt]. rewrite !Z.gtb_ltb.
  repeat match goal with
  | |- context [Z.ltb ?x ?y] => destruct (Z.ltb_spec x y)
  end; try reflexivity; exfalso; lia.
Qed.

Ltac lex3 :=
  unfold numbers; cbn [lex_lt];
  repeat match goal with
  | |- context [Z.ltb ?x ?y] => destruct (Z.ltb_spec x y)
  | H : context [Z.ltb ?x ?y] |- _ => destruct (Z.ltb_spec x y)
  end;
  try discriminate; try reflexivity; try (exfalso; lia).

(** X2: on well-formed version strings [BeforeVersion] is asymmetric: when
    it answers [true] for a pair, it answers [false] for the pair swapped. *)
Theorem BeforeVersion_asymmetric (a b : triple) :
  well_formed a = true -> well_formed b = true ->
  BeforeVersion (render a) (render b) = Ret true ->
  BeforeVersion (render b) (render a) = Ret false.
Proof.
  intros Ha Hb. rewrite !BeforeVersion_render by assumption.
  intros H. injection H as H. f_equal. revert H. lex3.
Qed.

Lemma BeforeVersion_asymmetric_witness :
  well_formed (mkTriple "v" (str "0") (str "4") (str "23")) = true /\
  well_formed (mkTriple "v" (str "0") (str "4") (str "9")) = true /\
  BeforeVersion (str "v0.4.23") (str "v0.4.9") = Ret true /\
  BeforeVersion (str "v0.4.9") (str "v0.4.23") = Ret false.
Proof.
  split; [reflexivity|]. split; [reflexivity|]. split; [reflexivity|].
  exact (BeforeVersion_asymmetric
           (mkTriple "v" (str "0") (str "4") (str "23"))
           (mkTriple "v" (str "0") (str "4") (str "9"))
           eq_refl eq_refl eq_refl).
Defined.

(** X3: on well-formed version strings [BeforeVersion] is transitive. *)
Theorem BeforeVersion_transitive (a b c : triple) :
  well_formed a = true -> well_formed b = true -> well_formed c = true ->
  BeforeVersion (render a) (render b) = Ret true ->
  BeforeVersion (render b) (render c) = Ret true ->
  BeforeVersion (render a) (render c) = Ret true.
Proof.
  intros Ha Hb Hc. rewrite !BeforeVersion_render by assumption.
  intros H1 H2. injection H1 as H1. injection H2 as H2. f_equal.
  revert H1 H2. lex3.
Qed.

Lemma BeforeVersion_transitive_witness :
  well_formed (mkTriple "v" (str "1") (str "0") (str "0")) = true /\
  well_formed (mkTriple "v" (str "0") (str "4") (str "23")) = true /\
  well_formed (mkTriple "v" (str "0") (str "3") (str "10")) = true /\
  BeforeVersion (str "v1.0.0") (str "v0.3.10") = Ret true.
Proof.
  split; [reflexivity|]. split; [reflexivity|]. split; [reflexivity|].
  exact (BeforeVersion_transitive
           (mkTriple "v" (str "1") (str "0") (str "0"))
           (mkTriple "v" (str "0") (str "4") (str "23"))
           (mkTriple "v" (str "0") (str "3") (str "10"))
           eq_refl eq_refl eq_refl eq_refl eq_refl).
Defined.

(** X4: two well-formed version strings are left unordered by
    [BeforeVersion], in both directions, exactly when their three numbers
    agree; the prefix bytes and leading zeros play no part. *)
Theorem BeforeVersion_unordered_iff (a b : triple) :
  well_formed a = true -> well_formed b = true ->
  (BeforeVersion (render a) (render b) = Ret false /\
   BeforeVersion (render b) (render a) = Ret false) <->
  numbers a = numbers b.
Proof.
  intros Ha Hb. rewrite !BeforeVersion_render by assumption. split.
  - intros [H1 H2]. injection H1 as H1. injection H2 as H2.
    revert H1 H2. unfold numbers. cbn [lex_lt].
    repeat match goal with
    | |- context [Z.ltb ?x ?y] => destruct (Z.ltb_spec x y)
    end; try discriminate; intros _ _.
    replace (value (major a)) with (value (major b)) by lia.
    replace (value (minor a)) with (value (minor b)) by lia.
    replace (value (patch a)) with (value (patch b)) by lia.
    reflexivity.
  - unfold numbers. intros [= H0 H1 H2]. rewrite H0, H1, H2.
    cbn [lex_lt]. rewrite !Z.ltb_irrefl. split; reflexivity.
Qed.

Lemma BeforeVersion_unordered_iff_witness :
  well_formed (mkTriple "v" (str "1") (str "02") (str "3")) = true /\
  well_formed (mkTriple "V" (str "1") (str "2") (str "003")) = true /\
  BeforeVersion (str "v1.02.3") (str "V1.2.003") = Ret false /\
  BeforeVersion (str "V1.2.003") (str "v1.02.3") = Ret false.
Proof.
  split; [reflexivity|]. split; [reflexivity|].
  apply (BeforeVersion_unordered_iff
           (mkTriple "v" (str "1") (str "02") (str "3"))
           (mkTriple "V" (str "1") (str "2") (str "003"))
           eq_refl eq_refl).
  reflexivity.
Defined.

(** ** Where [BeforeVersion] panics *)

Lemma index_panic {A : Type} (l : list A) (i : Z) (p : panic) :
  index l i = Panics p -> p = IndexOutOfRange /\ (i < 0 \/ Z.of_nat (length l) <= i).
Proof.
  unfold index.
  destruct (Z.leb_spec 0 i); destruct (Z.ltb_spec i (Z.of_nat (length l)));
    cbn [andb]; try (intros [= <-]; split; [reflexivity|lia]).
  destruct (nth_error l (Z.to_nat i)) eqn:E; [discriminate|].
  apply nth_error_None in E. lia.
Qed.

(** The loop panics only on an index, and then one of the two lists ends
    before the loop does. *)
Lemma BeforeVersion_loop_panic (aparts bparts : list gostring) (n i : nat)
    (p : panic) :
  BeforeVersion_loop aparts bparts (Z.of_nat i) n = Panics p ->
  p = IndexOutOfRange /\
  ((length aparts < i + n)%nat \/ (length bparts < i + n)%nat).
Proof.
  revert i. induction n as [|n IH]; intros i H; [discriminate|].
  cbn [BeforeVersion_loop] in H.
  destruct (index aparts (Z.of_nat i)) as [a|q|] eqn:Ea; cbn [rbind] in H;
    [|injection H as ->|discriminate].
  - destruct (Atoi a) as [an|e]; [|discriminate].
    destruct (index bparts (Z.of_nat i)) as [b|q|] eqn:Eb; cbn [rbind] in H;
      [|injection H as ->|discriminate].
    + destruct (Atoi b) as [bn|e]; [|discriminate].
      destruct (bn <? an); [discriminate|].
      destruct (bn >? an); [discriminate|].
      replace (Z.of_nat i + 1) with (Z.of_nat (S i)) in H by lia.
      apply IH in H. destruct H as [-> H]. split; [reflexivity|lia].
    + apply index_panic in Eb. destruct Eb as [-> Hb]. split; [reflexivity|lia].
  - apply index_panic in Ea. destruct Ea as [-> Ha]. split; [reflexivity|lia].
Qed.

Lemma BeforeVersion_loop_not_Blocks (aparts bparts : list gostring) (n : nat) :
  forall i, BeforeVersion_loop aparts bparts i n <> Blocks.
Proof.
  induction n as [|n IH]; intros i; [discriminate|].
  cbn [BeforeVersion_loop]. unfold index.
  destruct ((0 <=? i) && (i <? Z.of_nat (length aparts))); [|discriminate].
  destruct (nth_error aparts (Z.to_nat i)); [|discriminate]. cbn [rbind].
  destruct (Atoi _); [|discriminate].
  destruct ((0 <=? i) && (i <? Z.of_nat (length bparts))); [|discriminate].
  destruct (nth_error bparts (Z.to_nat i)); [|discriminate]. cbn [rbind].
  destruct (Atoi _); [|discriminate].
  destruct (_ <? _); [discriminate|]. destruct (_ >? _); [discriminate|].
  apply IH.
Qed.

(** X1: [BeforeVersion] always ends, by returning or by one of two panics:
    the slice [check[1:]] or [cur[1:]] is out of range exactly when one of
    the strings is empty, and an index [aparts[i]] or [bparts[i]] is out of
    range only when, after the prefix, one of the strings has fewer than
    three dot-separated fields. *)
Theorem BeforeVersion_outcomes (check cur : gostring) :
  (BeforeVersion check cur = Panics SliceBoundsOutOfRange <->
   check = [] \/ cur = []) /\
  (BeforeVersion check cur = Panics IndexOutOfRange ->
   check <> [] /\ cur <> [] /\
   ((length (fields check) < 3)%nat \/ (length (fields cur) < 3)%nat)) /\
  BeforeVersion check cur <> Panics NilDereference /\
  BeforeVersion check cur <> Blocks.
Proof.
  destruct check as [|p a].
  { repeat split; try discriminate; intros; auto. }
  destruct cur as [|q b].
  { repeat split; try discriminate; intros; auto. }
  rewrite BeforeVersion_fields by (cbn [length]; lia).
  pose proof (BeforeVersion_loop_panic (fields (p :: a)) (fields (q :: b)) 3 0)
    as Hp. cbn [Z.of_nat] in Hp.
  pose proof (BeforeVersion_loop_not_Blocks (fields (p :: a)) (fields (q :: b)) 3 0)
    as Hb.
  repeat split.
  - intros H. apply Hp in H. destruct H as [H _]. discriminate H.
  - intros [H|H]; discriminate H.
  - discriminate.
  - discriminate.
  - apply Hp in H. destruct H as [_ H]. exact H.
  - intros H. apply Hp in H. destruct H as [H _]. discriminate H.
  - exact Hb.
Qed.

Lemma BeforeVersion_loop_self_short (parts : list gostring) (n i : nat) :
  forallb (fun f => negb (is_error (Atoi f))) parts = true ->
  (i <= length parts)%nat -> (length parts < i + n)%nat ->
  BeforeVersion_loop parts parts (Z.of_nat i) n = Panics IndexOutOfRange.
Proof.
  intros Hall. revert i. induction n as [|n IH]; intros i Hi Hn; [lia|].
  cbn [BeforeVersion_loop].
  destruct (Nat.eq_dec i (length parts)) as [->|Hne].
  - rewrite index_out_of_range by lia. reflexivity.
  - rewrite (index_nth parts i []) by lia. cbn [rbind].
    assert (Hin : In (nth i parts []) parts) by (apply nth_In; lia).
    rewrite forallb_forall in Hall. specialize (Hall _ Hin).
    destruct (Atoi (nth i parts [])) as [an|e]; [|discriminate Hall].
    rewrite Z.ltb_irrefl.
    assert (Hgt : (an >? an) = false) by (rewrite Z.gtb_ltb; apply Z.ltb_irrefl).
    rewrite Hgt.
    replace (Z.of_nat i + 1) with (Z.of_nat (S i)) by lia.
    apply IH; lia.
Qed.

(** X5: a version string with fewer than three fields, each of them a
    number, panics when it is compared with itself: the loop runs past the
    last field. *)
Theorem BeforeVersion_self_short (v : gostring) :
  v <> [] -> (length (fields v) < 3)%nat ->
  forallb (fun f => negb (is_error (Atoi f))) (fields v) = true ->
  BeforeVersion v v = Panics IndexOutOfRange.
Proof.
  intros Hv Hlen Hall.
  rewrite BeforeVersion_fields by (destruct v; [contradiction|cbn [length]; lia]).
  apply (BeforeVersion_loop_self_short (fields v) 3 0); [assumption|lia|lia].
Qed.

Lemma BeforeVersion_self_short_witness :
  (length (fields (str "v0.4")) < 3)%nat /\
  BeforeVersion (str "v0.4") (str "v0.4") = Panics IndexOutOfRange.
Proof.
  split; [simpl; lia|].
  apply BeforeVersion_self_short; [discriminate|simpl; lia|reflexivity].
Defined.

(** ** [io.Copy] on a response body *)

(** With enough fuel and a file that takes the bytes, [io.Copy] writes the
    whole body, in order, counts it, and returns the transport error that
    ended the body, if any. *)
Lemma Copy_body_result (fuel : nat) :
  forall (dst : file) (src : body) (written : Z),
    write_error dst = None -> (length (pending src) < fuel)%nat ->
    Copy fuel dst src written =
    Ret (written + Z.of_nat (length (pending src)),
         option_map Error (failure src),
         mkFile (fname dst) (contents dst ++ pending src) None,
         mkBody [] (segment src) (failure src)).
Proof.
  induction fuel as [|fuel IH]; intros dst src written Hw Hf; [lia|].
  cbn [Copy].
  destruct (pending src) as [|c s] eqn:Ep.
  - rewrite (body_Read_spent src _ Ep).
    destruct src as [pe se fa]. cbn [pending segment failure] in *. subst pe.
    destruct dst as [na co we]. cbn [write_error fname contents] in *. subst we.
    rewrite app_nil_r, Z.add_0_r. destruct fa; reflexivity.
  - destruct (body_Read_pending src _ c s Ep copyBufferSize_pos) as [k HR].
    rewrite HR. unfold file_Write. rewrite Hw.
    rewrite IH; cbn [write_error pending segment failure fname contents];
      [|reflexivity|rewrite length_skipn; cbn [length] in Hf; lia].
    assert (Hlen : (length (firstn k s) + length (skipn k s) = length s)%nat)
      by (rewrite <- length_app, firstn_skipn; reflexivity).
    do 4 f_equal.
    + cbn [length]. lia.
    + rewrite <- app_assoc. cbn [app]. now rewrite firstn_skipn.
Qed.

Section MorePackageFacts.

Variable Quote : gostring -> gostring.
Variable filepath_Join : gostring -> gostring -> gostring.
Variable GetUserAgent : gostring.

(** ** [ApiEndpoint] *)

(** X6: for an api file that holds five fields separated by four slashes,
    [ApiEndpoint] returns the third and the fifth joined by a colon, with no
    error; the other fields are not looked at, and nothing is trimmed off the
    fifth. *)
Theorem ApiEndpoint_multiaddr (w : World) (dir f0 f1 host f3 port : gostring) :
  free_of_sep "/" f0 = true -> free_of_sep "/" f1 = true ->
  free_of_sep "/" host = true -> free_of_sep "/" f3 = true ->
  free_of_sep "/" port = true ->
  ReadFile w (filepath_Join dir (str "api")) =
    inl (f0 ++ "/"%char :: f1 ++ "/"%char :: host ++ "/"%char :: f3
            ++ "/"%char :: port) ->
  ApiEndpoint Quote filepath_Join w dir =
  ([ReadFileEv (filepath_Join dir (str "api"))],
   Ret (host ++ str ":" ++ port, None)).
Proof.
  intros H0 H1 H2 H3 H4 HR. rewrite ApiEndpoint_returns, HR.
  rewrite !Split_field by assumption. rewrite Split_free by assumption.
  reflexivity.
Qed.

(** X7: [ApiEndpoint] always returns, and its error is nil exactly when the
    api file can be read and holds exactly four slashes. *)
Theorem ApiEndpoint_resolves_iff (w : World) (dir : gostring) :
  exists ep err,
    snd (ApiEndpoint Quote filepath_Join w dir) = Ret (ep, err) /\
    (err = None <->
     exists val, ReadFile w (filepath_Join dir (str "api")) = inl val /\
                 count_occ ascii_dec val "/"%char = 4%nat).
Proof.
  rewrite ApiEndpoint_returns. cbn [snd].
  destruct (ReadFile w (filepath_Join dir (str "api"))) as [val|e].
  - pose proof (Split_length "/" val) as HL.
    assert (Hiff : (exists v, @inl gostring gostring val = inl v /\
                              count_occ ascii_dec v "/"%char = 4%nat) <->
                   count_occ ascii_dec val "/"%char = 4%nat).
    { split; [intros (v & [= <-] & Hc); exact Hc|intros Hc; now exists val]. }
    destruct (Split val "/") as [|f0 [|f1 [|f2 [|f3 [|f4 [|f5 fs]]]]]];
      cbn [length] in HL; eexists _, _; (split; [reflexivity|]);
      rewrite Hiff; split; intros H; try discriminate H; try reflexivity;
      try lia.
  - eexists _, _. split; [reflexivity|]. split; [discriminate|].
    intros (v & Hv & _). discriminate Hv.
Qed.

(** ** [httpGet] *)

(** X8: [httpGet] sends one HEAD request and at most one GET request after
    it, for the same URL, the GET under the configured user agent; it never
    returns a response without having sent both. *)
Theorem httpGet_requests (w : HttpWorld) (url : gostring) :
  (fst (httpGet Quote GetUserAgent w url) = [GatewayHeadEv url] \/
   fst (httpGet Quote GetUserAgent w url) =
     [GatewayHeadEv url; GatewayGetEv url GetUserAgent]) /\
  (forall r e, snd (httpGet Quote GetUserAgent w url) = Ret (Some r, e) ->
     fst (httpGet Quote GetUserAgent w url) =
       [GatewayHeadEv url; GatewayGetEv url GetUserAgent]).
Proof.
  unfold httpGet. cbn [iobind emit].
  destruct (http_Head w url) as [headResponse e0].
  destruct (TempFile w) as [[f|] [err|]]; cbn [iobind lift deref ioret fst snd app];
    try (split; [left; reflexivity|discriminate]).
  destruct headResponse as [hr|]; cbn [iobind lift deref ioret fst snd app];
    try (split; [left; reflexivity|discriminate]).
  destruct (Atoi (Header hr (str "Content-Length"))) as [size|ne];
    cbn [iobind lift deref ioret fst snd app];
    try (split; [left; reflexivity|discriminate]).
  destruct (http_NewRequest w url) as [e1|];
    cbn [iobind lift deref ioret emit fst snd app];
    try (split; [left; reflexivity|discriminate]).
  destruct (http_Do w url) as [[resp|] [e2|]];
    cbn [iobind lift deref ioret fst snd app];
    try (split; [right; reflexivity|reflexivity]).
  destruct (Copy (S (length (pending (Body resp)))) f (Body resp) 0)
    as [[[[n ce] f'] b']| |]; cbn [iobind lift deref ioret fst snd app];
    try (split; [right; reflexivity|reflexivity]).
  destruct ce; cbn [iobind lift deref ioret fst snd app];
    try (split; [right; reflexivity|reflexivity]).
  destruct (reporter_receives w); cbn [iobind lift deref ioret fst snd app];
    split; try (right; reflexivity); reflexivity.
Qed.

(** X9: when the HEAD response carries no usable Content-Length, [httpGet]
    returns an error that names the header, and sends no GET request: the
    transfer is given up for a number that only sizes the progress line. *)
Theorem httpGet_content_length_fatal (w : HttpWorld) (url : gostring)
    (f : file) (hr : Response) (e0 : option gostring) (ne : NumError) :
  TempFile w = (Some f, None) ->
  http_Head w url = (Some hr, e0) ->
  Atoi (Header hr (str "Content-Length")) = inr ne ->
  httpGet Quote GetUserAgent w url =
  ([GatewayHeadEv url],
   Ret (None,
        Some (Error (str "http.Head Content-Length error: "
                     ++ error_text
                          (Atoi_error Quote (Header hr (str "Content-Length")) ne))))).
Proof.
  intros HT HH HA. unfold httpGet. rewrite HH, HT.
  cbn [iobind emit lift deref]. rewrite HA. reflexivity.
Qed.

(** What [httpGet] does once HEAD, the temporary file, the request and GET
    have gone well: the copy decides. *)
Lemma httpGet_after_Do (w : HttpWorld) (url : gostring)
    (f : file) (hr r : Response) (e0 : option gostring) (size : Z) :
  TempFile w = (Some f, None) -> write_error f = None ->
  http_Head w url = (Some hr, e0) ->
  Atoi (Header hr (str "Content-Length")) = inl size ->
  http_NewRequest w url = None ->
  http_Do w url = (Some r, None) ->
  httpGet Quote GetUserAgent w url =
  ([GatewayHeadEv url; GatewayGetEv url GetUserAgent],
   match failure (Body r) with
   | Some msg =>
       Ret (None, Some (Error (str "Error writing temp file to disk: " ++ msg)))
   | None =>
       if reporter_receives w
       then Ret (Some (mkResponse (Status r) (StatusCode r) (Header r)
                                  (mkBody [] (segment (Body r)) None)), None)
       else Blocks
   end).
Proof.
  intros HT Hw HH HA HN HD. unfold httpGet. rewrite HH, HT.
  cbn [iobind emit lift deref]. rewrite HA, HN. cbn [iobind emit]. rewrite HD.
  cbn [iobind lift deref].
  rewrite (Copy_body_result _ f (Body r) 0 Hw) by lia.
  cbn [iobind]. destruct (failure (Body r)) as [msg|]; cbn [option_map].
  - reflexivity.
  - destruct (reporter_receives w); reflexivity.
Qed.

(** X10: when the body of the GET response breaks off with a transport
    error, [httpGet] returns no response and reports the error as one of
    writing the temporary file. *)
Theorem httpGet_body_failure (w : HttpWorld) (url : gostring)
    (f : file) (hr r : Response) (e0 : option gostring) (size : Z)
    (msg : gostring) :
  TempFile w = (Some f, None) -> write_error f = None ->
  http_Head w url = (Some hr, e0) ->
  Atoi (Header hr (str "Content-Length")) = inl size ->
  http_NewRequest w url = None ->
  http_Do w url = (Some r, None) ->
  failure (Body r) = Some msg ->
  snd (httpGet Quote GetUserAgent w url) =
  Ret (None, Some (Error (str "Error writing temp file to disk: " ++ msg))).
Proof.
  intros HT Hw HH HA HN HD HF.
  rewrite (httpGet_after_Do w url f hr r e0 size HT Hw HH HA HN HD), HF.
  reflexivity.
Qed.

(** X11: when every step of the transfer goes well but [PrintProgress] has
    returned, [httpGet] does not return: it blocks on [done <- n], after both
    requests. *)
Theorem httpGet_done_blocks (w : HttpWorld) (url : gostring)
    (f : file) (hr r : Response) (e0 : option gostring) (size : Z) :
  TempFile w = (Some f, None) -> write_error f = None ->
  http_Head w url = (Some hr, e0) ->
  Atoi (Header hr (str "Content-Length")) = inl size ->
  http_NewRequest w url = None ->
  http_Do w url = (Some r, None) ->
  failure (Body r) = None ->
  reporter_receives w = false ->
  httpGet Quote GetUserAgent w url =
  ([GatewayHeadEv url; GatewayGetEv url GetUserAgent], Blocks).
Proof.
  intros HT Hw HH HA HN HD HF HR.
  rewrite (httpGet_after_Do w url f hr r e0 size HT Hw HH HA HN HD), HF, HR.
  reflexivity.
Qed.

(** ** [httpFetch] and [Fetch] *)

(** X12: when the transfer goes well, [httpFetch] returns: a stream under
    the ceiling if the status code is below 400 (a redirection or a 304
    included), and otherwise no stream and the status as the error. *)
Theorem httpFetch_returns (w : HttpWorld) (url : gostring)
    (f : file) (hr r : Response) (e0 : option gostring) (size : Z) :
  TempFile w = (Some f, None) -> write_error f = None ->
  http_Head w url = (Some hr, e0) ->
  Atoi (Header hr (str "Content-Length")) = inl size ->
  http_NewRequest w url = None ->
  http_Do w url = (Some r, None) ->
  failure (Body r) = None ->
  reporter_receives w = true ->
  snd (httpFetch Quote GetUserAgent w url) =
  Ret (if StatusCode r <? 400
       then (Some (newLimitReadCloser (mkBody [] (segment (Body r)) None)
                                      fetchSizeLimit), None)
       else (None, Some (Error (Status r ++ str ": ")))).
Proof.
  intros HT Hw HH HA HN HD HF HR.
  pose proof (httpGet_after_Do w url f hr r e0 size HT Hw HH HA HN HD) as HG.
  rewrite HF, HR in HG.
  rewrite (httpFetch_of_httpGet Quote GetUserAgent w url _ _ HG).
  cbn [snd StatusCode Status Body]. rewrite Z.geb_leb.
  destruct (Z.leb_spec 400 (StatusCode r)); destruct (Z.ltb_spec (StatusCode r) 400);
    try reflexivity; lia.
Qed.

(** The results of [httpFetch]: a stream or an error, never both and
    never neither. *)
Lemma httpFetch_exclusive (w : HttpWorld) (url : gostring)
    (s : option (limitReadCloser body)) (e : option error) :
  snd (httpFetch Quote GetUserAgent w url) = Ret (s, e) ->
  (s = None /\ e <> None) \/ (s <> None /\ e = None).
Proof.
  intros H.
  destruct (httpGet Quote GetUserAgent w url) as [t g] eqn:HG.
  destruct g as [[[r|] [err|]]| |].
  - unfold httpFetch in H. rewrite HG in H. injection H as <- <-.
    left. split; [reflexivity|discriminate].
  - rewrite (httpFetch_of_httpGet Quote GetUserAgent w url t r HG) in H.
    cbn [snd] in H. destruct (StatusCode r >=? 400); injection H as <- <-;
      [left|right]; split; try reflexivity; discriminate.
  - unfold httpFetch in H. rewrite HG in H. injection H as <- <-.
    left. split; [reflexivity|discriminate].
  - unfold httpFetch in H. rewrite HG in H. discriminate H.
  - unfold httpFetch in H. rewrite HG in H. discriminate H.
  - unfold httpFetch in H. rewrite HG in H. discriminate H.
Qed.

(** X13: whenever [Fetch] returns, by the daemon or by the gateway, it
    returns a stream or an error, never both and never neither. *)
Theorem Fetch_exclusive (w : World) (ipfspath : gostring)
    (s : option (limitReadCloser body)) (e : option error) :
  snd (Fetch Quote filepath_Join GetUserAgent w ipfspath) = Ret (s, e) ->
  (s = None /\ e <> None) \/ (s <> None /\ e = None).
Proof.
  rewrite Fetch_unfold. cbv zeta. intros H.
  assert (HG : forall t : list event,
    snd (t, snd (httpFetch Quote GetUserAgent (http w)
                           (GlobalGatewayUrl ++ ipfspath))) = Ret (s, e) ->
    (s = None /\ e <> None) \/ (s <> None /\ e = None)).
  { intros t Ht. cbn [snd] in Ht. eapply httpFetch_exclusive. exact Ht. }
  destruct (ReadFile w (apifile filepath_Join w)) as [val|err];
    [|now apply HG in H].
  destruct (Split val "/") as [|f0 [|f1 [|f2 [|f3 [|f4 [|f5 fs]]]]]];
    try (now apply HG in H).
  destruct (IsUp w (f2 ++ str ":" ++ f4)); [|now apply HG in H].
  cbn [snd] in H.
  destruct (Cat w (f2 ++ str ":" ++ f4) ipfspath); injection H as <- <-;
    [right|left]; split; try reflexivity; discriminate.
Qed.

End MorePackageFacts.

(** ** The limited stream in general *)

Lemma limitReadCloser_Read_step {R : Type} `{Reader R} (r : R) (l : Z) (n : nat) :
  Read (mkLimitReadCloser (mkLimitedReader r l)) n =
  if l <=? 0 then ([], Some EOF, mkLimitReadCloser (mkLimitedReader r l))
  else
    let n' := if Z.of_nat n >? l then Z.to_nat l else n in
    let '(bs, err, r') := Read r n' in
    (bs, err, mkLimitReadCloser (mkLimitedReader r' (l - Z.of_nat (length bs)))).
Proof.
  unfold Read at 1, limitReadCloser_Reader, Read at 1, LimitedReader_Reader,
    LimitedReader_Read. cbn [lrcReader LN LR].
  destruct (l <=? 0); [reflexivity|].
  destruct (Read r (if Z.of_nat n >? l then Z.to_nat l else n)) as [[bs err] r'].
  reflexivity.
Qed.

Lemma ReadAll_limit_left {R : Type} `{Reader R} (Hh : honest) (fuel bufsize : nat) :
  forall (r : R) (l : Z) (acc data : gostring) (e : option error)
         (rc' : limitReadCloser R),
    0 <= l ->
    ReadAll fuel bufsize (newLimitReadCloser r l) acc = Ret (data, e, rc') ->
    0 <= LN (lrcReader rc') /\
    Z.of_nat (length data) = Z.of_nat (length acc) + (l - LN (lrcReader rc')).
Proof.
  induction fuel as [|fuel IH]; intros r l acc data e rc' Hl HA; [discriminate|].
  unfold newLimitReadCloser, LimitReader in *. cbn [ReadAll] in HA.
  rewrite limitReadCloser_Read_step in HA.
  destruct (Z.leb_spec l 0).
  - injection HA as <- <- <-. cbn [lrcReader LN].
    rewrite app_nil_r. split; lia.
  - cbv zeta in HA.
    set (n' := if Z.of_nat bufsize >? l then Z.to_nat l else bufsize) in *.
    assert (Hn' : Z.of_nat n' <= l).
    { subst n'. rewrite Z.gtb_ltb.
      destruct (Z.ltb_spec l (Z.of_nat bufsize)); lia. }
    pose proof (Hh r n') as Hlen.
    destruct (Read r n') as [[bs err] r1]. cbn [fst] in Hlen.
    assert (Hnew : 0 <= l - Z.of_nat (length bs)) by lia.
    destruct err as [[|msg]|].
    + injection HA as <- <- <-. cbn [lrcReader LN].
      rewrite length_app. split; lia.
    + injection HA as <- <- <-. cbn [lrcReader LN].
      rewrite length_app. split; lia.
    + apply IH in HA; [|exact Hnew]. destruct HA as [Hge Heq].
      rewrite length_app in Heq. split; lia.
Qed.

(** X14: whatever the reader underneath does, errors included, as long as
    it never stores more bytes than it was asked for, reading a stream made
    by [newLimitReadCloser] with a ceiling of [l] bytes never yields more
    than [l] bytes, and the allowance left goes down by the bytes yielded. *)
Theorem limited_stream_bounded :
  forall (R : Type) (HR : Reader R), honest ->
  forall (fuel bufsize : nat) (r : R) (l : Z) (data : gostring)
         (e : option error) (rc' : limitReadCloser R),
    0 <= l ->
    ReadAll fuel bufsize (newLimitReadCloser r l) [] = Ret (data, e, rc') ->
    Z.of_nat (length data) <= l /\
    LN (lrcReader rc') = l - Z.of_nat (length data).
Proof.
  intros R HR Hh fuel bufsize r l data e rc' Hl HA.
  destruct (ReadAll_limit_left Hh fuel bufsize r l [] data e rc' Hl HA)
    as [Hge Heq].
  cbn [length Z.of_nat] in Heq. split; lia.
Qed.

Lemma body_honest : @honest body _.
Proof.
  intros b n. unfold Read, body_Reader, body_Read.
  destruct (pending b) as [|c s]; cbn [fst length]; [lia|].
  rewrite length_firstn. lia.
Qed.

Lemma limited_stream_bounded_witness :
  @honest body _ /\
  Z.of_nat (length (str "hel")) <= 3 /\
  LN (lrcReader (mkLimitReadCloser
                   (mkLimitedReader (mkBody (str "lo") 1 None) 0))) =
    3 - Z.of_nat (length (str "hel")).
Proof.
  split; [exact body_honest|].
  apply (limited_stream_bounded body _ body_honest 4 2
           (mkBody (str "hello") 1 None) 3 (str "hel") None); [lia|].
  vm_compute. reflexivity.
Defined.

Lemma ReadAll_limited_body (fuel bufsize : nat) :
  (0 < bufsize)%nat ->
  forall (b : body) (l : Z) (acc : gostring),
    (length (pending b) < fuel)%nat -> Z.of_nat (length (pending b)) <= l ->
    exists rc',
      ReadAll fuel bufsize (newLimitReadCloser b l) acc =
      Ret (acc ++ pending b,
           if Z.of_nat (length (pending b)) <? l
           then option_map Error (failure b) else None,
           rc').
Proof.
  intros Hb. induction fuel as [|fuel IH]; intros b l acc Hf Hl; [lia|].
  unfold newLimitReadCloser, LimitReader in *. cbn [ReadAll].
  rewrite limitReadCloser_Read_step.
  destruct (Z.leb_spec l 0) as [Hl0|Hl0].
  - assert (Hp : pending b = []) by (destruct (pending b); [reflexivity|cbn [length] in Hl; lia]).
    rewrite Hp in *. cbn [length Z.of_nat] in *.
    destruct (Z.ltb_spec 0 l); [lia|].
    eexists. rewrite !app_nil_r. reflexivity.
  - cbv zeta.
    set (n' := if Z.of_nat bufsize >? l then Z.to_nat l else bufsize).
    assert (Hn' : (0 < n')%nat).
    { subst n'. rewrite Z.gtb_ltb.
      destruct (Z.ltb_spec l (Z.of_nat bufsize)); lia. }
    destruct (pending b) as [|c s] eqn:Ep.
    + rewrite (body_Read_spent b _ Ep). cbn [length Z.of_nat].
      destruct (Z.ltb_spec 0 l); [|lia].
      destruct (failure b); eexists; rewrite !app_nil_r; reflexivity.
    + destruct (body_Read_pending b n' c s Ep Hn') as [k HR]. rewrite HR.
      assert (Hlen : (length (firstn k s) + length (skipn k s) = length s)%nat)
        by (rewrite <- length_app, firstn_skipn; reflexivity).
      destruct (IH (mkBody (skipn k s) (segment b) (failure b))
                   (l - Z.of_nat (length (c :: firstn k s)))
                   (acc ++ c :: firstn k s)) as [rc' HA].
      * cbn [pending length] in *. lia.
      * cbn [pending length] in *. lia.
      * exists rc'. rewrite HA. cbn [pending failure].
        rewrite <- app_assoc. cbn [app]. rewrite firstn_skipn.
        replace (Z.of_nat (length (skipn k s)) <?
                 l - Z.of_nat (length (c :: firstn k s)))
          with (Z.of_nat (length (c :: s)) <? l); [reflexivity|].
        cbn [length].
        destruct (Z.ltb_spec (Z.of_nat (S (length s))) l);
          destruct (Z.ltb_spec (Z.of_nat (length (skipn k s)))
                               (l - Z.of_nat (S (length (firstn k s)))));
          try reflexivity; lia.
Qed.

(** X15: a response body that fits under the ceiling is read through the
    limited stream whole; the transport error that ended it comes through
    when the body is shorter than the ceiling, and is dropped, the stream
    ending as if complete, when the body is exactly as long as the ceiling. *)
Theorem limited_stream_short_body (b : body) (l : Z) (fuel bufsize : nat) :
  (0 < bufsize)%nat -> (length (pending b) < fuel)%nat ->
  Z.of_nat (length (pending b)) <= l ->
  exists rc',
    ReadAll fuel bufsize (newLimitReadCloser b l) [] =
    Ret (pending b,
         if Z.of_nat (length (pending b)) <? l
         then option_map Error (failure b) else None,
         rc').
Proof.
  intros Hb Hf Hl.
  destruct (ReadAll_limited_body fuel bufsize Hb b l [] Hf Hl) as [rc' HA].
  exists rc'. exact HA.
Qed.

Lemma limited_stream_short_body_witness :
  (exists rc',
     ReadAll 6 2 (newLimitReadCloser
                    (mkBody (str "hello") 1 (Some (str "reset"))) 6) [] =
     Ret (str "hello", Some (Error (str "reset")), rc')) /\
  (exists rc',
     ReadAll 6 2 (newLimitReadCloser
                    (mkBody (str "hello") 1 (Some (str "reset"))) 5) [] =
     Ret (str "hello", None, rc')).
Proof.
  split.
  - apply (limited_stream_short_body
             (mkBody (str "hello") 1 (Some (str "reset"))) 6 6 2);
      [lia|simpl; lia|simpl; lia].
  - apply (limited_stream_short_body
             (mkBody (str "hello") 1 (Some (str "reset"))) 5 6 2);
      [lia|simpl; lia|simpl; lia].
Defined.

(** ** [RunCmd], once more *)

(** X16: of the newlines that end the output of a successful command
    [RunCmd] removes exactly one: the output [s] followed by a newline comes
    back as [s], whatever [s] ends in. *)
Theorem RunCmd_trims_one_newline (w : World) (p bin : gostring)
    (args : list gostring) (s : gostring) :
  CombinedOutput w bin args (Environ w ++ [str "IPFS_PATH=" ++ p])
    = (s ++ [newline], None) ->
  RunCmd w p bin args = Ret (s, None).
Proof.
  intros Hout. unfold RunCmd. rewrite Hout.
  assert (Hne : s ++ [newline] <> []) by (destruct s; discriminate).
  rewrite (index_last (s ++ [newline]) newline Hne). cbn [rbind].
  rewrite last_last, Ascii.eqb_refl.
  rewrite (slice_to_removelast (s ++ [newline]) Hne). cbn [rbind].
  now rewrite removelast_last.
Qed.

Lemma RunCmd_trims_one_newline_witness :
  RunCmd (machine None false "" (str "0.4.23" ++ [newline; newline])
                  gateway_refusing)
         (str "/home/u/.ipfs") (str "ipfs") [str "version"]
    = Ret (str "0.4.23" ++ [newline], None).
Proof.
  exact (RunCmd_trims_one_newline
           (machine None false "" (str "0.4.23" ++ [newline; newline])
                    gateway_refusing)
           (str "/home/u/.ipfs") (str "ipfs") [str "version"]
           (str "0.4.23" ++ [newline]) eq_refl).
Defined.

(** ** The fetch functions on the sample worlds *)

Lemma ApiEndpoint_multiaddr_witness :
  free_of_sep "/" (str "127.0.0.1") = true /\
  free_of_sep "/" (str "5001" ++ [newline]) = true /\
  ApiEndpoint sample_Quote sample_Join api_with_newline (str "/home/u/.ipfs")
  = ([ReadFileEv (str "/home/u/.ipfs/api")],
     Ret (str "127.0.0.1:5001" ++ [newline], None)).
Proof.
  split; [reflexivity|]. split; [reflexivity|].
  exact (ApiEndpoint_multiaddr sample_Quote sample_Join api_with_newline
           (str "/home/u/.ipfs")
           (str "") (str "ip4") (str "127.0.0.1") (str "tcp")
           (str "5001" ++ [newline])
           eq_refl eq_refl eq_refl eq_refl eq_refl eq_refl).
Defined.

Lemma httpGet_content_length_fatal_witness :
  Atoi (sample_header "" (str "Content-Length")) = inr ErrSyntax /\
  httpGet sample_Quote sample_UserAgent
          (gateway_answering "200 OK" 200 "" "hello") sample_url =
  ([GatewayHeadEv sample_url],
   Ret (None,
        Some (Error (str "http.Head Content-Length error: strconv.Atoi: parsing "
                     ++ sample_Quote [] ++ str ": invalid syntax")))).
Proof.
  split; [reflexivity|].
  exact (httpGet_content_length_fatal sample_Quote sample_UserAgent
           (gateway_answering "200 OK" 200 "" "hello") sample_url
           sample_tempfile
           (mkResponse (str "200 OK") 200 (sample_header "") (mkBody [] 1 None))
           None ErrSyntax eq_refl eq_refl eq_refl).
Defined.

Lemma httpGet_body_failure_witness :
  snd (httpGet sample_Quote sample_UserAgent
               (gateway_breaking "hel" "connection reset by peer") sample_url) =
  Ret (None,
       Some (Error (str "Error writing temp file to disk: connection reset by peer"))).
Proof.
  exact (httpGet_body_failure sample_Quote sample_UserAgent
           (gateway_breaking "hel" "connection reset by peer") sample_url
           sample_tempfile
           (mkResponse (str "200 OK") 200 (sample_header "5") (mkBody [] 1 None))
           (mkResponse (str "200 OK") 200 (sample_header "5")
                       (mkBody (str "hel") 1
                               (Some (str "connection reset by peer"))))
           None 5 (str "connection reset by peer")
           eq_refl eq_refl eq_refl eq_refl eq_refl eq_refl eq_refl).
Defined.

Lemma httpGet_done_blocks_witness :
  httpGet sample_Quote sample_UserAgent gateway_unreported sample_url =
  ([GatewayHeadEv sample_url; GatewayGetEv sample_url sample_UserAgent], Blocks).
Proof.
  exact (httpGet_done_blocks sample_Quote sample_UserAgent
           gateway_unreported sample_url sample_tempfile
           (mkResponse (str "200 OK") 200 (sample_header "5") (mkBody [] 1 None))
           (mkResponse (str "200 OK") 200 (sample_header "5")
                       (mkBody (str "hello") 1 None))
           None 5
           eq_refl eq_refl eq_refl eq_refl eq_refl eq_refl eq_refl eq_refl).
Defined.

Lemma httpFetch_returns_witness :
  snd (httpFetch sample_Quote sample_UserAgent
                 (gateway_answering "304 Not Modified" 304 "0" "") sample_url) =
  Ret (Some (newLimitReadCloser (mkBody [] 1 None) fetchSizeLimit), None).
Proof.
  exact (httpFetch_returns sample_Quote sample_UserAgent
           (gateway_answering "304 Not Modified" 304 "0" "") sample_url
           sample_tempfile
           (mkResponse (str "304 Not Modified") 304 (sample_header "0")
                       (mkBody [] 1 None))
           (mkResponse (str "304 Not Modified") 304 (sample_header "0")
                       (mkBody [] 1 None))
           None 0
           eq_refl eq_refl eq_refl eq_refl eq_refl eq_refl eq_refl eq_refl).
Defined.

Lemma Fetch_exclusive_witness :
  snd (Fetch sample_Quote sample_Join sample_UserAgent
        (machine None false "" []
                 (gateway_answering "404 Not Found" 404 "9" "not found"))
        (str "/ipns/dist.ipfs.io")) =
    Ret (None, Some (Error (str "404 Not Found: "))) /\
  ((@None (limitReadCloser body) = None /\
    Some (Error (str "404 Not Found: ")) <> None) \/
   (@None (limitReadCloser body) <> None /\
    Some (Error (str "404 Not Found: ")) = None)).
Proof.
  assert (H : snd (Fetch sample_Quote sample_Join sample_UserAgent
                     (machine None false "" []
                        (gateway_answering "404 Not Found" 404 "9" "not found"))
                     (str "/ipns/dist.ipfs.io")) =
              Ret (None, Some (Error (str "404 Not Found: "))))
    by (vm_compute; reflexivity).
  split; [exact H|].
  exact (Fetch_exclusive sample_Quote sample_Join sample_UserAgent _ _ _ _ H).
Defined.

(** ** [CopyTo] and [Move] *)

Lemma set_file_same (d : Disk) (p : gostring) (c : option gostring) :
  files (set_file d p c) p = c.
Proof. cbn [set_file files]. destruct (path_eq_dec p p); [reflexivity|contradiction]. Qed.




Lemma handle_Read_pos (d : Disk) (h : handle) (n : nat) :
  (0 < n)%nat ->
  handle_Read d h n =
  match firstn n (skipn (hoff h) (file_contents d (hpath h))) with
  | [] => ([], Some EOF, h)
  | bs => (bs, None, mkHandle (hpath h) (hoff h + length bs))
  end.
Proof. intros Hn. destruct n; [lia|reflexivity]. Qed.







(** X19: copying a file onto itself empties it, and moving a file onto
    itself deletes it, both with a nil error: [os.Create] truncates the file
    that [os.Open] has just opened, so [io.Copy] finds nothing to read. *)
Theorem Move_onto_itself (d : Disk) (p c : gostring) :
  files d p = Some c -> create_error d p = None -> remove_error d p = None ->
  (exists d', CopyTo d p p = Ret (None, d') /\ files d' p = Some []) /\
  (exists d', Move d p p = Ret (None, d') /\ files d' p = None).
Proof.
  intros Hs Hc Hr.
  assert (HC : CopyTo d p p = Ret (None, set_file d p (Some []))).
  { unfold CopyTo, os_Open, os_Create. rewrite Hs, Hc.
    unfold file_contents. rewrite set_file_same.
    cbn [length copy_files]. rewrite (handle_Read_pos _ _ _ copyBufferSize_pos).
    unfold file_contents. cbn [hpath hoff]. rewrite set_file_same.
    cbn [skipn]. rewrite firstn_nil. reflexivity. }
  split.
  - eexists. split; [exact HC|]. apply set_file_same.
  - unfold Move. rewrite HC. cbn [rbind]. unfold os_Remove.
    rewrite set_file_same. cbn [set_file remove_error]. rewrite Hr.
    eexists. split; [reflexivity|]. apply set_file_same.
Qed.

Lemma Move_onto_itself_witness :
  (exists d', CopyTo (disk_with "/tmp/ipfs" "binary") (str "/tmp/ipfs")
                     (str "/tmp/ipfs") = Ret (None, d') /\
              files d' (str "/tmp/ipfs") = Some []) /\
  (exists d', Move (disk_with "/tmp/ipfs" "binary") (str "/tmp/ipfs")
                   (str "/tmp/ipfs") = Ret (None, d') /\
              files d' (str "/tmp/ipfs") = None).
Proof.
  apply (Move_onto_itself (disk_with "/tmp/ipfs" "binary") (str "/tmp/ipfs")
           (str "binary")); reflexivity.
Defined.



(** ** [PrintProgress] *)

